(** * TMDB query shell: pattern dispatch, handlers and console loop

    A shallow embedding of [tmdb_cli.py].  A Python string is modelled as a
    [string] whose characters are its code points, which are below 256 (the
    Latin-1 range: a text with a code point beyond it has no counterpart
    here); Python lists as [list], the optional keys of the JSON objects the
    program reads as [option] fields, and the effects of the program (HTTP
    requests, console output, raised exceptions) as a writer/error monad [M].

    The console is an external collaborator: a call of [console.print] is
    the event [Print] and always returns.  What the console library does
    with the text (its markup may be refused with an exception of the
    library's own) is not modelled. *)

From Stdlib Require Import List String Ascii ZArith Lia Bool DecimalString.
Import ListNotations.
Open Scope string_scope.

Set Implicit Arguments.

(** ** Python string builtins used by the program *)

Module Py.

(** [str.isspace] below 256: TAB, LF, VT, FF, CR, FS, GS, RS, US, SPACE, NEL
    (133) and NO-BREAK SPACE (160). *)
Definition is_space (c : ascii) : bool :=
  let n := nat_of_ascii c in
  (((9 <=? n) && (n <=? 13)) || ((28 <=? n) && (n <=? 32))
   || (n =? 133) || (n =? 160))%nat.

Definition is_digit (c : ascii) : bool :=
  let n := nat_of_ascii c in ((48 <=? n) && (n <=? 57))%nat.

(** The capital letters below 256: A to Z, and 192 to 222 but the
    multiplication sign (215); each has its small letter 32 further. *)
Definition is_capital (c : ascii) : bool :=
  let n := nat_of_ascii c in
  (((65 <=? n) && (n <=? 90))
   || ((192 <=? n) && (n <=? 222) && negb (n =? 215)))%nat.

Definition lower_char (c : ascii) : ascii :=
  if is_capital c then ascii_of_nat (nat_of_ascii c + 32) else c.

(** [s.lower()] *)
Fixpoint lower (s : string) : string :=
  match s with
  | EmptyString => EmptyString
  | String c s' => String (lower_char c) (lower s')
  end.

(** [s.replace(c, "")] for a one-character string [c]. *)
Fixpoint remove_char (c : ascii) (s : string) : string :=
  match s with
  | EmptyString => EmptyString
  | String d s' => if Ascii.eqb c d then remove_char c s'
                   else String d (remove_char c s')
  end.

(** [s.rstrip(c)] for a one-character string [c]. *)
Fixpoint rstrip_char (c : ascii) (s : string) : string :=
  match s with
  | EmptyString => EmptyString
  | String d s' =>
      match rstrip_char c s' with
      | EmptyString => if Ascii.eqb c d then EmptyString else String d EmptyString
      | r => String d r
      end
  end.

(** [s.split()]: the maximal runs of non-whitespace characters, in order.
    [cur] is the run being read. *)
Fixpoint split_from (cur : string) (s : string) : list string :=
  match s with
  | EmptyString => match cur with EmptyString => [] | _ => [cur] end
  | String c s' =>
      if is_space c then
        match cur with
        | EmptyString => split_from EmptyString s'
        | _ => cur :: split_from EmptyString s'
        end
      else split_from (cur ++ String c EmptyString) s'
  end.

Definition split (s : string) : list string := split_from EmptyString s.

(** [s.split(sep)[0]] for a one-character [sep]: the text before the first
    occurrence of [sep], the whole string when there is none. *)
Fixpoint before_first (sep : ascii) (s : string) : string :=
  match s with
  | EmptyString => EmptyString
  | String c s' => if Ascii.eqb sep c then EmptyString
                   else String c (before_first sep s')
  end.

(** [s.startswith(p)] *)
Definition startswith (p s : string) : bool := String.prefix p s.

(** [sep.join(l)] *)
Definition join (sep : string) (l : list string) : string := String.concat sep l.

(** Removal of the leading and of the trailing characters that satisfy [p]. *)
Fixpoint lstrip_of (p : ascii -> bool) (s : string) : string :=
  match s with
  | EmptyString => EmptyString
  | String c s' => if p c then lstrip_of p s' else s
  end.

Fixpoint rstrip_of (p : ascii -> bool) (s : string) : string :=
  match s with
  | EmptyString => EmptyString
  | String c s' =>
      match rstrip_of p s' with
      | EmptyString => if p c then EmptyString else String c EmptyString
      | r => String c r
      end
  end.

(** [s.strip()] *)
Definition strip (s : string) : string :=
  rstrip_of is_space (lstrip_of is_space s).

(** The whitespace that [int] ignores around a literal: TAB, LF, VT, FF, CR
    and SPACE, and the two spaces beyond 127 (133 and 160); not FS to US. *)
Definition is_int_space (c : ascii) : bool :=
  let n := nat_of_ascii c in
  (((9 <=? n) && (n <=? 13)) || (n =? 32) || (n =? 133) || (n =? 160))%nat.

(** The default of [sys.get_int_max_str_digits()]: conversions between [int]
    and [str] refuse more digits than this. *)
Definition max_str_digits : nat := 4300.

(** The number of decimal digits of a literal (underscores do not count). *)
Fixpoint digit_count (s : string) : nat :=
  match s with
  | EmptyString => 0
  | String c s' => if is_digit c then S (digit_count s') else digit_count s'
  end.

(** The digits of a decimal literal: decimal digits, with single underscores
    allowed between two digits.  [prev] tells whether the previous character
    was a digit. *)
Fixpoint int_digits (acc : Z) (prev : bool) (s : string) : option Z :=
  match s with
  | EmptyString => if prev then Some acc else None
  | String c s' =>
      if is_digit c then
        int_digits (10 * acc + Z.of_nat (nat_of_ascii c - 48)) true s'
      else if Ascii.eqb c "_" then
        (if prev then int_digits acc false s' else None)
      else None
  end.

(** [int(s)]: surrounding whitespace is ignored, then an optional sign and a
    decimal literal of at most [max_str_digits] digits; [None] stands for
    [ValueError]. *)
Definition int (s : string) : option Z :=
  let literal := rstrip_of is_int_space (lstrip_of is_int_space s) in
  if (max_str_digits <? digit_count literal)%nat then None
  else
    match literal with
    | String "-" d => option_map Z.opp (int_digits 0 false d)
    | String "+" d => int_digits 0 false d
    | d => int_digits 0 false d
    end.

(** The number of decimal digits of an integer. *)
Definition decimal_digits (n : Z) : nat :=
  match Z.to_int n with
  | Decimal.Pos d | Decimal.Neg d => Decimal.nb_digits d
  end.

(** [str(n)] for an integer [n]; [None] stands for the [ValueError] of an
    integer of more than [max_str_digits] digits. *)
Definition str (n : Z) : option string :=
  if (max_str_digits <? decimal_digits n)%nat then None
  else Some (NilZero.string_of_int (Z.to_int n)).

End Py.

(** ** The matcher *)

(** The three kinds of template token.  In the pattern table a template is a
    list of words in which ["_"] is the single-token wildcard and ["%"] the
    multi-token wildcard. *)
Inductive token : Type :=
  | Literal (w : string)
  | SingleWild
  | MultiWild.

Definition token_of (w : string) : token :=
  if String.eqb w "_" then SingleWild
  else if String.eqb w "%" then MultiWild
  else Literal w.

(** The multi-wildcard branch of the matcher: [run] is the non-empty run of
    tokens taken so far, [rest] the input after it and [tail] the matcher of
    the rest of the template.  Runs are tried from the shortest. *)
Fixpoint try_split (tail : list string -> option (list string))
    (run rest : list string) {struct rest} : option (list string) :=
  match tail rest with
  | Some b => Some (Py.join " " run :: b)
  | None =>
      match rest with
      | [] => None
      | y :: rest' => try_split tail (run ++ [y])%list rest'
      end
  end.

(** Modelled from the spec: [match.py], the module that [tmdb_cli.py] imports
    [match] from, is not among the sources.  The definition follows the
    matcher's contract: an empty template matches only the empty input; a
    literal must equal the head of the input; a single wildcard captures one
    token; a multi wildcard captures a non-empty run of tokens joined with
    spaces, the shortest run for which the rest of the template matches the
    rest of the input.  The contract leaves open whether a multi wildcard
    may take no token at all; it takes one or more here, as the data model
    and the glossary word it.  [None] is the no-match value. *)
Fixpoint match_ (pattern source : list string) : option (list string) :=
  match pattern with
  | [] => match source with [] => Some [] | _ :: _ => None end
  | w :: pattern' =>
      match token_of w with
      | Literal l =>
          match source with
          | [] => None
          | x :: source' =>
              if String.eqb l x then match_ pattern' source' else None
          end
      | SingleWild =>
          match source with
          | [] => None
          | x :: source' => option_map (cons x) (match_ pattern' source')
          end
      | MultiWild =>
          match source with
          | [] => None
          | x :: source' => try_split (match_ pattern') [x] source'
          end
      end
  end.

(** ** Exceptions, console output and HTTP requests *)

Inductive exn : Type :=
  | KeyboardInterrupt
  | EOFError
  | ValueError
  | IndexError
  | KeyError.

(** [KeyboardInterrupt] is the only one of these that is not a subclass of
    Python's [Exception]. *)
Definition is_Exception (e : exn) : bool :=
  match e with KeyboardInterrupt => false | _ => true end.

Inductive res (A : Type) : Type :=
  | Ok (a : A)
  | Raise (e : exn).
Arguments Raise {A} e.

(** The GET requests the program sends, by resource and search parameters. *)
Inductive request : Type :=
  | SearchMovie (query : string)            (* /search/movie *)
  | MovieDetails (movie_id : Z)             (* /movie/{id} with credits *)
  | DiscoverYear (year : string)            (* /discover/movie, release year *)
  | DiscoverRange (gte lte : string)        (* /discover/movie, release dates *)
  | SearchPerson (query : string)           (* /search/person *)
  | PersonCredits (person_id : Z).          (* /person/{id}/movie_credits *)

(** What the program prints on the console. *)
Inductive message : Type :=
  | MsgWarnNoKey                            (* the start-up warning *)
  | MsgWelcome                              (* the banner *)
  | MsgBlank                                (* the empty line before a prompt *)
  | MsgApiError (what e : string)           (* "<what>: <e>" *)
  | MsgLimitSet (n : Z)                     (* "Result limit set to <n>" *)
  | MsgLimitNotPositive                     (* "Limit must be a positive number" *)
  | MsgLimitUsage                           (* "Usage: limit <number>" *)
  | MsgNotUnderstood                        (* "I don't understand that query..." *)
  | MsgNoResults                            (* "No results found." *)
  | MsgFound (answers : list string)        (* "Found <n> result(s):" and the items *)
  | MsgError (e : exn)                      (* "Error: <e>" *)
  | MsgFarewell.                            (* "So long!" *)

Inductive event : Type :=
  | Request (r : request)
  | Print (m : message).

(** A computation yields the events it performed, in order, and either a value
    or the exception that ended it. *)
Definition M (A : Type) : Type := (list event * res A)%type.

Definition ret {A} (a : A) : M A := ([], Ok a).
Definition raise {A} (e : exn) : M A := ([], Raise e).
Definition emit (ev : event) : M unit := ([ev], Ok tt).

Definition bind {A B} (c : M A) (k : A -> M B) : M B :=
  match c with
  | (t, Ok a) => let (t', r) := k a in ((t ++ t')%list, r)
  | (t, Raise e) => (t, Raise e)
  end.

Notation "x <- c ;; k" := (bind c (fun x => k))
  (at level 61, c at next level, right associativity).
Notation "c ;;; k" := (bind c (fun _ => k))
  (at level 61, right associativity).

(** A list comprehension [[f x for x in l]] whose element expression can
    raise: elements are evaluated in order, the first exception ends it. *)
Fixpoint mapM {A B} (f : A -> M B) (l : list A) : M (list B) :=
  match l with
  | [] => ret []
  | x :: l' => y <- f x ;; ys <- mapM f l' ;; ret (y :: ys)
  end.

(** A comprehension with a condition, [[f x for x in l if c x]]. *)
Fixpoint filterM {A B} (c : A -> M bool) (f : A -> M B) (l : list A) : M (list B) :=
  match l with
  | [] => ret []
  | x :: l' =>
      b <- c x ;;
      if b then y <- f x ;; ys <- filterM c f l' ;; ret (y :: ys)
      else filterM c f l'
  end.

(** [l[i]] on a list: [IndexError] out of range. *)
Definition index {A} (l : list A) (i : nat) : M A :=
  match nth_error l i with
  | Some x => ret x
  | None => raise IndexError
  end.

(** [d[key]] on a JSON object: [KeyError] when the key is absent. *)
Definition item {A} (field : option A) : M A :=
  match field with
  | Some x => ret x
  | None => raise KeyError
  end.

(** [d.get(key, default)] *)
Definition get {A} (field : option A) (default : A) : A :=
  match field with
  | Some x => x
  | None => default
  end.

(** [not l] on a list. *)
Definition is_empty {A} (l : list A) : bool :=
  match l with [] => true | _ :: _ => false end.

(** ** The JSON objects of the API, by the keys the program reads.
    A field is [None] when the object has no such key. *)

Record movie : Type := {
  movie_id : option Z;
  movie_title : option string;
  movie_release_date : option string;
  movie_job : option string }.

Record person : Type := { person_id : option Z }.

Record crew_member : Type := {
  crew_name : option string;
  crew_job : option string }.

Record cast_member : Type := { cast_name : option string }.

Record credits : Type := {
  credits_crew : option (list crew_member);
  credits_cast : option (list cast_member) }.

Record details : Type := { details_credits : option credits }.

Record results (A : Type) : Type := { results_of : option (list A) }.

Record movie_credits : Type := {
  credits_as_cast : option (list movie);
  credits_as_crew : option (list movie) }.

(** The outcome of the [try] block of an API helper: the parsed JSON body, an
    exception of class [Exception] with its text (connection error, error
    status, unexpected body), or an interrupt while the request is in flight. *)
Inductive http (A : Type) : Type :=
  | Json (body : A)
  | Failed (e : string)
  | Interrupted.
Arguments Failed {A} e.
Arguments Interrupted {A}.

(** The environment of a run: the configured key and the movie database. *)
Record World : Type := {
  TMDB_API_KEY : string;
  search_movie : string -> http (results movie);
  movie_details : Z -> http details;
  discover_year : string -> http (results movie);
  discover_range : string -> string -> http (results movie);
  search_person_named : string -> http (results person);
  person_movie_credits : Z -> http movie_credits }.

(** The two in-band sentinels. *)
Definition NoAnswers : list string := ["No answers"].
Definition NotUnderstood : list string := ["I don't understand"].

(** What a handler returns: a list of strings, or Python's [None]. *)
Definition answers : Type := option (list string).

(** [bool(a)] for a handler's result. *)
Definition truthy (a : answers) : bool :=
  match a with
  | Some (_ :: _) => true
  | _ => false
  end.

Definition handler : Type := list string -> M answers.

Section Program.

Variable W : World.

(** ** API helper functions *)

(** The body shared by the helpers once the key is known to be set: send the
    request; on a JSON body return [proj body]; on an [Exception] print the
    diagnostic and return [default]; an interrupt propagates. *)
Definition try_request {A B} (r : request) (response : http A)
    (proj : A -> B) (what : string) (default : B) : M B :=
  emit (Request r) ;;;
  match response with
  | Json body => ret (proj body)
  | Failed e => emit (Print (MsgApiError what e)) ;;; ret default
  | Interrupted => raise KeyboardInterrupt
  end.

Definition no_key : bool := String.eqb (TMDB_API_KEY W) "".

Definition search_movies_by_title (title : string) : M (list movie) :=
  if no_key then ret []
  else try_request (SearchMovie title) (search_movie W title)
         (fun body => get (results_of body) []) "Error searching movies" [].

Definition get_movie_details (movie_id : Z) : M (option details) :=
  if no_key then ret None
  else try_request (MovieDetails movie_id) (movie_details W movie_id)
         (fun body => Some body) "Error getting movie details" None.

Definition search_movies_by_year (year : string) : M (list movie) :=
  if no_key then ret []
  else try_request (DiscoverYear year) (discover_year W year)
         (fun body => get (results_of body) []) "Error searching by year" [].

Definition search_movies_by_year_range (start_year end_year : string)
    : M (list movie) :=
  if no_key then ret []
  else
    let gte := start_year ++ "-01-01" in
    let lte := end_year ++ "-12-31" in
    try_request (DiscoverRange gte lte) (discover_range W gte lte)
      (fun body => get (results_of body) []) "Error searching by year range" [].

Definition search_person (name : string) : M (list person) :=
  if no_key then ret []
  else try_request (SearchPerson name) (search_person_named W name)
         (fun body => get (results_of body) []) "Error searching person" [].

Definition get_movies_by_person (person_id : Z) (role : string)
    : M (list movie) :=
  if no_key then ret []
  else try_request (PersonCredits person_id) (person_movie_credits W person_id)
         (fun data =>
            get (if String.eqb role "cast" then credits_as_cast data
                 else if String.eqb role "crew" then credits_as_crew data
                 else None) [])
         "Error getting person's movies" [].

(** ** Action functions *)

Definition titles_of (movies : list movie) : M (list string) :=
  mapM (fun movie => item (movie_title movie)) movies.

Definition title_by_year (matches : list string) : M answers :=
  year <- index matches 0 ;;
  movies <- search_movies_by_year year ;;
  if is_empty movies then ret (Some NoAnswers)
  else titles <- titles_of (firstn 10 movies) ;; ret (Some titles).

Definition title_by_year_range (matches : list string) : M answers :=
  start_year <- index matches 0 ;;
  end_year <- index matches 1 ;;
  movies <- search_movies_by_year_range start_year end_year ;;
  if is_empty movies then ret (Some NoAnswers)
  else titles <- titles_of (firstn 10 movies) ;; ret (Some titles).

(** [int(matches[0])] *)
Definition int_of_first (matches : list string) : M Z :=
  m <- index matches 0 ;;
  match Py.int m with
  | Some year => ret year
  | None => raise ValueError
  end.

(** [str(n)] *)
Definition str_of (n : Z) : M string :=
  match Py.str n with
  | Some s => ret s
  | None => raise ValueError
  end.

Definition title_before_year (matches : list string) : M answers :=
  year <- int_of_first matches ;;
  end_year <- str_of (year - 1) ;;
  movies <- search_movies_by_year_range "1900" end_year ;;
  if is_empty movies then ret (Some NoAnswers)
  else titles <- titles_of (firstn 10 movies) ;; ret (Some titles).

Definition title_after_year (matches : list string) : M answers :=
  year <- int_of_first matches ;;
  let current_year := 2025%Z in
  start_year <- str_of (year + 1) ;;
  end_year <- str_of current_year ;;
  movies <- search_movies_by_year_range start_year end_year ;;
  if is_empty movies then ret (Some NoAnswers)
  else titles <- titles_of (firstn 10 movies) ;; ret (Some titles).

(** [l if l else ["No answers"]] *)
Definition or_no_answers (l : list string) : answers :=
  if is_empty l then Some NoAnswers else Some l.

Definition director_by_title (matches : list string) : M answers :=
  title <- index matches 0 ;;
  movies <- search_movies_by_title title ;;
  match movies with
  | [] => ret (Some NoAnswers)
  | first :: _ =>
      id <- item (movie_id first) ;;
      details <- get_movie_details id ;;
      match details with
      | None => ret (Some NoAnswers)
      | Some details =>
          match details_credits details with
          | None => ret (Some NoAnswers)
          | Some credits =>
              directors <-
                filterM (fun crew => job <- item (crew_job crew) ;;
                                     ret (String.eqb job "Director"))
                        (fun crew => item (crew_name crew))
                        (get (credits_crew credits) []) ;;
              ret (or_no_answers directors)
          end
      end
  end.

Definition title_by_director (matches : list string) : M answers :=
  director_name <- index matches 0 ;;
  persons <- search_person director_name ;;
  match persons with
  | [] => ret (Some NoAnswers)
  | first :: _ =>
      id <- item (person_id first) ;;
      movies <- get_movies_by_person id "crew" ;;
      director_movies <-
        filterM (fun movie =>
                   ret (match movie_job movie with
                        | Some job => String.eqb job "Director"
                        | None => false
                        end))
                (fun movie => item (movie_title movie))
                movies ;;
      ret (if is_empty director_movies then Some NoAnswers
           else Some (firstn 10 director_movies))
  end.

Definition actors_by_title (matches : list string) : M answers :=
  title <- index matches 0 ;;
  movies <- search_movies_by_title title ;;
  match movies with
  | [] => ret (Some NoAnswers)
  | first :: _ =>
      id <- item (movie_id first) ;;
      details <- get_movie_details id ;;
      match details with
      | None => ret (Some NoAnswers)
      | Some details =>
          match details_credits details with
          | None => ret (Some NoAnswers)
          | Some credits =>
              actors <- mapM (fun cast => item (cast_name cast))
                             (firstn 10 (get (credits_cast credits) [])) ;;
              ret (or_no_answers actors)
          end
      end
  end.

Definition year_by_title (matches : list string) : M answers :=
  title <- index matches 0 ;;
  movies <- search_movies_by_title title ;;
  match movies with
  | [] => ret (Some NoAnswers)
  | first :: _ =>
      let release_date := get (movie_release_date first) "" in
      if String.eqb release_date "" then ret (Some NoAnswers)
      else
        let year := Py.before_first "-" release_date in
        ret (Some [year])
  end.

Definition title_by_actor (matches : list string) : M answers :=
  actor_name <- index matches 0 ;;
  persons <- search_person actor_name ;;
  match persons with
  | [] => ret (Some NoAnswers)
  | first :: _ =>
      id <- item (person_id first) ;;
      movies <- get_movies_by_person id "cast" ;;
      titles <- titles_of (firstn 10 movies) ;;
      ret (or_no_answers titles)
  end.

Definition bye_action (dummy : list string) : M answers :=
  raise KeyboardInterrupt.

(** ** Pattern-action list and dispatcher *)

Definition pa_list : list (list string * handler) :=
  [ (Py.split "what movies were made in _", title_by_year);
    (Py.split "what movies were made between _ and _", title_by_year_range);
    (Py.split "what movies were made before _", title_before_year);
    (Py.split "what movies were made after _", title_after_year);
    (Py.split "who directed %", director_by_title);
    (Py.split "who was the director of %", director_by_title);
    (Py.split "what movies were directed by %", title_by_director);
    (Py.split "who acted in %", actors_by_title);
    (Py.split "when was % made", year_by_title);
    (Py.split "in what movies did % appear", title_by_actor);
    (["bye"], bye_action) ].

(** [answers if answers else ["No answers"]] *)
Definition or_default (a : answers) : list string :=
  match a with
  | Some (x :: l) => x :: l
  | _ => NoAnswers
  end.

(** The loop of [search_pa_list] over a table. *)
Fixpoint search_table (table : list (list string * handler)) (src : list string)
    : M (list string) :=
  match table with
  | [] => ret NotUnderstood
  | (pattern, action) :: table' =>
      match match_ pattern src with
      | Some result => a <- action result ;; ret (or_default a)
      | None => search_table table' src
      end
  end.

Definition search_pa_list (src : list string) : M (list string) :=
  search_table pa_list src.

(** ** Console loop *)

Definition same (a b : list string) : bool :=
  if list_eq_dec string_dec a b then true else false.

(** [answers[:n]] *)
Definition slice_to {A} (n : Z) (l : list A) : list A :=
  if (0 <=? n)%Z then firstn (Z.to_nat n) l
  else firstn (List.length l - Z.to_nat (- n))%nat l.

(** The [limit] command: the second word of the query is read as an integer;
    [IndexError] and [ValueError] are caught by the inner [try]. *)
Definition limit_command (result_limit : Z) (query : string) : M Z :=
  match nth_error (Py.split query) 1 with
  | None => emit (Print MsgLimitUsage) ;;; ret result_limit
  | Some arg =>
      match Py.int arg with
      | None => emit (Print MsgLimitUsage) ;;; ret result_limit
      | Some new_limit =>
          if (0 <? new_limit)%Z then
            emit (Print (MsgLimitSet new_limit)) ;;; ret new_limit
          else emit (Print MsgLimitNotPositive) ;;; ret result_limit
      end
  end.

(** Truncation to the limit, then the display of the answers. *)
Definition show_answers (result_limit : Z) (answers : list string) : M unit :=
  let answers :=
    if same answers NotUnderstood || same answers NoAnswers then answers
    else slice_to result_limit answers in
  if same answers NotUnderstood then emit (Print MsgNotUnderstood)
  else if same answers NoAnswers then emit (Print MsgNoResults)
  else emit (Print (MsgFound answers)).

(** The body of the [try] of one iteration, after the line has been read:
    [line] is what the prompt returned.  The value is the result limit after
    the iteration. *)
Definition iteration (result_limit : Z) (line : string) : M Z :=
  let query := Py.lower (Py.remove_char "?" line) in
  if Py.startswith "limit " query then limit_command result_limit query
  else
    let query_words := Py.split query in
    if is_empty query_words then ret result_limit
    else
      answers <- search_pa_list query_words ;;
      show_answers result_limit answers ;;;
      ret result_limit.

(** What a prompt can give: a line, or an interrupt at the prompt. *)
Inductive input : Type :=
  | Line (s : string)
  | CtrlC.

(** Reading at the prompt; [None] is the end of the input stream.  The
    prompt of the console library returns the line typed without the
    whitespace around it. *)
Definition prompt (i : option input) : M string :=
  match i with
  | Some (Line s) => ret (Py.strip s)
  | Some CtrlC => raise KeyboardInterrupt
  | None => raise EOFError
  end.

(** [except (KeyboardInterrupt, EOFError): break] *)
Definition ends_loop (e : exn) : bool :=
  match e with
  | KeyboardInterrupt | EOFError => true
  | _ => false
  end.

(** How a turn of the [while True] loop ends. *)
Inductive next : Type :=
  | Continue (result_limit : Z)
  | Break.

(** [try: c except ...]: [handle e] is the clause that catches [e], if any. *)
Definition catch {A} (c : M A) (handle : exn -> option (M A)) : M A :=
  match c with
  | (t, Ok a) => (t, Ok a)
  | (t, Raise e) =>
      match handle e with
      | Some k => let (t', r) := k in ((t ++ t')%list, r)
      | None => (t, Raise e)
      end
  end.

(** One turn of the loop: the [try] with its two [except] clauses. *)
Definition turn (result_limit : Z) (i : option input) : M next :=
  catch
    (emit (Print MsgBlank) ;;;
     line <- prompt i ;;
     result_limit' <- iteration result_limit line ;;
     ret (Continue result_limit'))
    (fun e =>
       if ends_loop e then Some (ret Break)
       else if is_Exception e then
         Some (emit (Print (MsgError e)) ;;; ret (Continue result_limit))
       else None).

(** The [while True] loop over the inputs that the prompts will give; at the
    end of the inputs the prompt raises [EOFError].  The value is the list of
    the inputs left unread when the loop ends. *)
Fixpoint loop (result_limit : Z) (inputs : list input) : M (list input) :=
  match inputs with
  | [] => turn result_limit None ;;; ret []
  | i :: inputs' =>
      n <- turn result_limit (Some i) ;;
      match n with
      | Break => ret inputs'
      | Continue result_limit' => loop result_limit' inputs'
      end
  end.

Definition query_loop (inputs : list input) : M (list input) :=
  emit (Print MsgWelcome) ;;;
  left <- loop 10 inputs ;;
  emit (Print MsgFarewell) ;;;
  ret left.

(** The program: the warning when the key is not set, then the loop. *)
Definition main (inputs : list input) : M (list input) :=
  (if no_key then emit (Print MsgWarnNoKey) else ret tt) ;;;
  query_loop inputs.

End Program.

(** ** Notions used to state the properties *)

(** A word that is neither wildcard marker is a literal token. *)
Definition is_literal (w : string) : Prop := token_of w = Literal w.

(** The number of wildcards of a template. *)
Fixpoint wildcards (pattern : list string) : nat :=
  match pattern with
  | [] => 0
  | w :: pattern' =>
      match token_of w with
      | Literal _ => wildcards pattern'
      | _ => S (wildcards pattern')
      end
  end.

(** The input conforms to the template, with these bindings: every literal
    word of the template stands in the input, every single wildcard stands
    for one token, which it binds, and every multi wildcard for a non-empty
    run of tokens, which it binds joined with spaces. *)
Inductive conforms : list string -> list string -> list string -> Prop :=
  | conforms_nil : conforms [] [] []
  | conforms_literal (w : string) (pattern source bindings : list string) :
      token_of w = Literal w ->
      conforms pattern source bindings ->
      conforms (w :: pattern) (w :: source) bindings
  | conforms_single (w x : string) (pattern source bindings : list string) :
      token_of w = SingleWild ->
      conforms pattern source bindings ->
      conforms (w :: pattern) (x :: source) (x :: bindings)
  | conforms_multi (w : string) (run pattern source bindings : list string) :
      token_of w = MultiWild ->
      run <> [] ->
      conforms pattern source bindings ->
      conforms (w :: pattern) (run ++ source) (Py.join " " run :: bindings).

(** No template of the table matches the query. *)
Definition no_match (table : list (list string * handler)) (src : list string)
    : Prop :=
  Forall (fun entry => match_ (fst entry) src = None) table.

(** [(pattern, action)] is the first entry of the table, in its declared
    order, whose template matches the query, with bindings [result]. *)
Definition first_match (table : list (list string * handler))
    (src : list string) (pattern : list string) (action : handler)
    (result : list string) : Prop :=
  exists before after,
    table = (before ++ (pattern, action) :: after)%list /\
    no_match before src /\
    match_ pattern src = Some result.

(** What [search_pa_list] does with the result of the handler it invoked. *)
Definition finish (c : M answers) : M (list string) :=
  a <- c ;; ret (or_default a).

(** The response of the world to a request is an interrupt. *)
Definition interrupted (W : World) (r : request) : Prop :=
  match r with
  | SearchMovie q => search_movie W q = Interrupted
  | MovieDetails i => movie_details W i = Interrupted
  | DiscoverYear y => discover_year W y = Interrupted
  | DiscoverRange a b => discover_range W a b = Interrupted
  | SearchPerson q => search_person_named W q = Interrupted
  | PersonCredits i => person_movie_credits W i = Interrupted
  end.

(** The query of an iteration and its words, as [query_loop] computes them. *)
Definition query_of (line : string) : string :=
  Py.lower (Py.remove_char "?" line).

Definition query_words (line : string) : list string :=
  Py.split (query_of line).

(** The tokens as the specification words them: the line with its trailing
    question marks stripped, lowercased, split on whitespace. *)
Definition spec_tokens (line : string) : list string :=
  Py.split (Py.lower (Py.rstrip_char "?" line)).

(** The character occurs in the string. *)
Fixpoint has_char (c : ascii) (s : string) : bool :=
  match s with
  | EmptyString => false
  | String d s' => Ascii.eqb c d || has_char c s'
  end.

(** The exceptions that a computation using the API can end with, given the
    events [t] it performed: [ValueError], [IndexError] and [KeyError] at any
    time, [KeyboardInterrupt] when one of its requests was interrupted. *)
Definition raised_by (W : World) (t : list event) (e : exn) : Prop :=
  match e with
  | KeyboardInterrupt => exists r, In (Request r) t /\ interrupted W r
  | EOFError => False
  | _ => True
  end.

Definition raises_within {A} (W : World) (c : M A) : Prop :=
  forall t e, c = (t, Raise e) -> raised_by W t e.

(** The two error messages of the [limit] command. *)
Definition is_usage_error (m : message) : bool :=
  match m with
  | MsgLimitUsage | MsgLimitNotPositive => true
  | _ => false
  end.

(** ** Notions used to state further properties *)

Definition is_request (ev : event) : bool :=
  match ev with
  | Request _ => true
  | Print _ => false
  end.

(** The number of requests among the events. *)
Definition requests (t : list event) : nat :=
  List.length (filter is_request t).

(** A computation sends at most [n] requests. *)
Definition sends_at_most {A} (n : nat) (c : M A) : Prop :=
  requests (fst c) <= n.

(** Every event of a computation satisfies [P]. *)
Definition events_in {A} (P : event -> Prop) (c : M A) : Prop :=
  Forall P (fst c).

(** The diagnostic that an API helper prints when its request fails. *)
Definition is_api_error (ev : event) : Prop :=
  exists what e, ev = Print (MsgApiError what e).

(** What a handler may do: send requests and print such diagnostics. *)
Definition api_event (ev : event) : Prop :=
  (exists r, ev = Request r) \/ is_api_error ev.

Definition is_print (ev : event) : Prop := exists m, ev = Print m.

(** A text without an opening bracket holds no console markup. *)
Definition plain (text : string) : Prop := has_char "[" text = false.

(** The request fails with an exception whose text is plain. *)
Definition fails {A} (response : http A) : Prop :=
  exists e, response = Failed e /\ plain e.

(** Every request to the database fails (the network is down, say). *)
Definition unreachable (W : World) : Prop :=
  (forall q, fails (search_movie W q)) /\
  (forall i, fails (movie_details W i)) /\
  (forall y, fails (discover_year W y)) /\
  (forall a b, fails (discover_range W a b)) /\
  (forall q, fails (search_person_named W q)) /\
  (forall i, fails (person_movie_credits W i)).

(** The handlers of the table that use the API (all but [bye_action]). *)
Definition api_handlers (W : World) : list handler :=
  [ title_by_year W; title_by_year_range W; title_before_year W;
    title_after_year W; director_by_title W; title_by_director W;
    actors_by_title W; year_by_title W; title_by_actor W ].

(** All the characters of a string satisfy [p]. *)
Fixpoint all_chars (p : ascii -> bool) (s : string) : bool :=
  match s with
  | EmptyString => true
  | String c s' => p c && all_chars p s'
  end.

(** [str.isupper] on one character below 256. *)
Definition is_upper (c : ascii) : bool := Py.is_capital c.

(** A character that a word of a query can hold: no whitespace, no question
    mark, no capital letter. *)
Definition word_char (c : ascii) : bool :=
  negb (Py.is_space c) && negb (Ascii.eqb c "?") && negb (is_upper c).

(** The one request of a handler whose first call fails, and its outcome. *)
Definition gave_up (c : M answers) : Prop :=
  exists r what e,
    c = ([Request r; Print (MsgApiError what e)], Ok (Some NoAnswers)) /\
    plain e.

(** The names of the crew members whose job is "Director", in order. *)
Definition directors_of (crew : list crew_member) : list string :=
  flat_map (fun member =>
              match crew_job member, crew_name member with
              | Some job, Some name =>
                  if String.eqb job "Director" then [name] else []
              | _, _ => []
              end) crew.

(** A crew entry has both the keys that [director_by_title] reads. *)
Definition complete_entry (member : crew_member) : Prop :=
  crew_job member <> None /\ crew_name member <> None.

(** ** Worlds used in examples *)

(** The text of [n] times the character [c]. *)
Fixpoint repeat_char (c : ascii) (n : nat) : string :=
  match n with
  | 0 => EmptyString
  | S n' => String c (repeat_char c n')
  end.

(** A database that fails every request. *)
Definition offline (key : string) : World :=
  {| TMDB_API_KEY := key;
     search_movie := fun _ => Failed "offline";
     movie_details := fun _ => Failed "offline";
     discover_year := fun _ => Failed "offline";
     discover_range := fun _ _ => Failed "offline";
     search_person_named := fun _ => Failed "offline";
     person_movie_credits := fun _ => Failed "offline" |}.

Definition titled (title : string) : movie :=
  {| movie_id := Some 1%Z; movie_title := Some title;
     movie_release_date := Some "2020-01-01"; movie_job := None |}.

(** A database whose movies of any year are the given ones. *)
Definition yearly (movies : list movie) : World :=
  {| TMDB_API_KEY := "k";
     search_movie := fun _ => Failed "offline";
     movie_details := fun _ => Failed "offline";
     discover_year := fun _ => Json {| results_of := Some movies |};
     discover_range := fun _ _ => Failed "offline";
     search_person_named := fun _ => Failed "offline";
     person_movie_credits := fun _ => Failed "offline" |}.

Definition eleven : list movie :=
  map titled ["m1"; "m2"; "m3"; "m4"; "m5"; "m6"; "m7"; "m8"; "m9"; "m10"; "m11"].

Definition eight : list movie :=
  map titled ["m1"; "m2"; "m3"; "m4"; "m5"; "m6"; "m7"; "m8"].

(** A database with one movie found under two titles and its crew. *)
Definition cinema : World :=
  {| TMDB_API_KEY := "k";
     search_movie := fun _ =>
       Json {| results_of :=
                 Some [ {| movie_id := Some 27205%Z;
                           movie_title := Some "Inception";
                           movie_release_date := Some "2010-07-15";
                           movie_job := None |};
                        {| movie_id := None;
                           movie_title := Some "Inception: The Cobol Job";
                           movie_release_date := None;
                           movie_job := None |} ] |};
     movie_details := fun _ =>
       Json {| details_credits :=
                 Some {| credits_crew :=
                           Some [ {| crew_name := Some "Hans Zimmer";
                                     crew_job := Some "Original Music Composer" |};
                                  {| crew_name := Some "Christopher Nolan";
                                     crew_job := Some "Director" |};
                                  {| crew_name := Some "Christopher Nolan";
                                     crew_job := Some "Writer" |} ];
                         credits_cast := None |} |};
     discover_year := fun _ => Failed "offline";
     discover_range := fun _ _ => Failed "offline";
     search_person_named := fun _ => Failed "offline";
     person_movie_credits := fun _ => Failed "offline" |}.

(** * Properties *)

Unset Implicit Arguments.

(** ** The matcher *)

Example split_words :
  Py.split "  who  directed inception " = ["who"; "directed"; "inception"].
Proof. reflexivity. Qed.

Example int_literals :
  (Py.int "-12", Py.int "1_000", Py.int "1__0", Py.int "x", Py.int "", Py.int "+7")
  = (Some (-12)%Z, Some 1000%Z, None, None, None, Some 7%Z).
Proof. reflexivity. Qed.

Example str_of_int :
  (Py.str 2019, Py.str 0, Py.str (-3)) = (Some "2019", Some "0", Some "-3").
Proof. reflexivity. Qed.

Example match_year_range :
  match_ (Py.split "what movies were made between _ and _")
         (Py.split "what movies were made between 2010 and 2015")
  = Some ["2010"; "2015"].
Proof. reflexivity. Qed.

Example match_shortest_split :
  match_ (Py.split "when was % made") (Py.split "when was made in heaven made")
  = Some ["made in heaven"].
Proof. reflexivity. Qed.

Example match_needs_one_token :
  match_ (Py.split "who directed %") (Py.split "who directed") = None.
Proof. reflexivity. Qed.

Lemma match_nil (source : list string) :
  match_ [] source = match source with [] => Some [] | _ :: _ => None end.
Proof. reflexivity. Qed.

Lemma match_literal (w : string) (pattern source : list string) :
  is_literal w ->
  match_ (w :: pattern) source =
  match source with
  | [] => None
  | x :: source' => if String.eqb w x then match_ pattern source' else None
  end.
Proof. unfold is_literal. intros H. simpl. rewrite H. reflexivity. Qed.

Lemma match_single (pattern source : list string) :
  match_ ("_" :: pattern) source =
  match source with
  | [] => None
  | x :: source' => option_map (cons x) (match_ pattern source')
  end.
Proof. reflexivity. Qed.

Lemma match_multi (pattern source : list string) :
  match_ ("%" :: pattern) source =
  match source with
  | [] => None
  | x :: source' => try_split (match_ pattern) [x] source'
  end.
Proof. reflexivity. Qed.

(** With nothing after it, a multi wildcard takes the whole input. *)
Lemma try_split_last (run rest : list string) :
  try_split (match_ []) run rest = Some [Py.join " " (run ++ rest)%list].
Proof.
  revert run. induction rest as [|y rest IH]; intros run; simpl.
  - rewrite app_nil_r. reflexivity.
  - rewrite IH, <- app_assoc. reflexivity.
Qed.

(** A successful split captures a non-empty run and leaves the bindings of
    the tail. *)
Lemma try_split_some (tail : list string -> option (list string))
    (run rest r : list string) :
  try_split tail run rest = Some r ->
  exists taken left b,
    rest = (taken ++ left)%list /\ tail left = Some b /\
    r = Py.join " " (run ++ taken)%list :: b.
Proof.
  revert run. induction rest as [|y rest IH]; intros run; simpl.
  - destruct (tail []) as [b|] eqn:E; [|discriminate].
    intros [= <-]. exists [], [], b. rewrite !app_nil_r. auto.
  - destruct (tail (y :: rest)) as [b|] eqn:E.
    + intros [= <-]. exists [], (y :: rest), b. rewrite !app_nil_r. auto.
    + intros H. destruct (IH _ H) as (taken & left & b & -> & Hb & ->).
      exists (y :: taken), left, b. rewrite <- app_assoc. auto.
Qed.

(** A successful match yields one binding per wildcard. *)
Lemma match_bindings (pattern source r : list string) :
  match_ pattern source = Some r -> List.length r = wildcards pattern.
Proof.
  revert source r. induction pattern as [|w pattern IH]; intros source r; simpl.
  - destruct source; [intros [= <-]; reflexivity | discriminate].
  - destruct (token_of w).
    + destruct source as [|x source]; [discriminate|].
      destruct (String.eqb w0 x); [apply IH | discriminate].
    + destruct source as [|x source]; [discriminate|].
      destruct (match_ pattern source) as [b|] eqn:E; [|discriminate].
      intros [= <-]. simpl. f_equal. eapply IH, E.
    + destruct source as [|x source]; [discriminate|].
      intros H. apply try_split_some in H.
      destruct H as (taken & left & b & _ & Hb & ->).
      simpl. f_equal. eapply IH, Hb.
Qed.

(** A template without wildcards matches its own words only. *)
Lemma match_literals (words src r : list string) :
  Forall is_literal words ->
  match_ words src = Some r -> src = words /\ r = [].
Proof.
  intros Hw. revert src. induction Hw as [|w words Hl _ IH]; intros src.
  - rewrite match_nil. destruct src; [intros [= <-]; auto | discriminate].
  - rewrite (match_literal _ _ _ Hl). destruct src as [|x src]; [discriminate|].
    destruct (String.eqb_spec w x) as [<-|]; [|discriminate].
    intros H. destruct (IH _ H) as [-> ->]. auto.
Qed.

Lemma token_of_literal (w l : string) : token_of w = Literal l -> l = w.
Proof.
  unfold token_of. destruct (String.eqb w "_"); [discriminate|].
  destruct (String.eqb w "%"); [discriminate|]. intros [= <-]. reflexivity.
Qed.

(** What the matcher returns is a way in which the input conforms. *)
Lemma match_sound (pattern source bindings : list string) :
  match_ pattern source = Some bindings -> conforms pattern source bindings.
Proof.
  revert source bindings.
  induction pattern as [|w pattern IH]; intros source bindings; simpl.
  - destruct source; [intros [= <-]; constructor | discriminate].
  - destruct (token_of w) as [l| |] eqn:T.
    + pose proof (token_of_literal _ _ T) as ->.
      destruct source as [|x source]; [discriminate|].
      destruct (String.eqb_spec w x) as [<-|]; [|discriminate].
      intros H. apply conforms_literal; auto.
    + destruct source as [|x source]; [discriminate|].
      destruct (match_ pattern source) as [b|] eqn:E; [|discriminate].
      intros [= <-]. apply conforms_single; auto.
    + destruct source as [|x source]; [discriminate|].
      intros H. apply try_split_some in H.
      destruct H as (taken & left & b & -> & Hb & ->).
      apply (@conforms_multi w (x :: taken) pattern left b T);
        [discriminate | auto].
Qed.

(** The search for a split finds one when there is one. *)
Lemma try_split_complete (tail : list string -> option (list string))
    (run taken left b : list string) :
  tail left = Some b ->
  exists r, try_split tail run (taken ++ left) = Some r.
Proof.
  intros Hb. revert run. induction taken as [|y taken IH]; intros run.
  - destruct left; simpl; rewrite Hb; eexists; reflexivity.
  - simpl. destruct (tail (y :: taken ++ left)%list); [eexists; reflexivity|].
    apply IH.
Qed.

(** When the input conforms in some way, the matcher returns bindings. *)
Lemma match_complete (pattern source bindings : list string) :
  conforms pattern source bindings -> exists b, match_ pattern source = Some b.
Proof.
  induction 1 as [|w p s b T _ [b' IH]|w x p s b T _ [b' IH]
                 |w run p s b T Hrun _ [b' IH]].
  - exists []. reflexivity.
  - exists b'. rewrite (match_literal _ _ _ T), String.eqb_refl. exact IH.
  - exists (x :: b'). simpl. rewrite T, IH. reflexivity.
  - destruct run as [|x run]; [contradiction|].
    simpl. rewrite T. apply (try_split_complete _ _ _ _ _ IH).
Qed.

Lemma no_wildcards_literal (pattern : list string) :
  wildcards pattern = 0 -> Forall is_literal pattern.
Proof.
  induction pattern as [|w pattern IH]; simpl; [constructor|].
  destruct (token_of w) as [l| |] eqn:T; try discriminate.
  intros H. constructor; [|exact (IH H)].
  unfold is_literal. rewrite T, (token_of_literal _ _ T). reflexivity.
Qed.

Lemma match_itself (pattern : list string) :
  Forall is_literal pattern -> match_ pattern pattern = Some [].
Proof.
  induction 1 as [|w pattern Hl _ IH]; [reflexivity|].
  rewrite (match_literal _ _ _ Hl), String.eqb_refl. exact IH.
Qed.

(** C8.  The matcher decides, for every template and every input, whether
    the input conforms to the template: it returns bindings, which are a way
    in which the input conforms, or the no-match value [None], and this
    exactly when the input conforms in no way.  The successful match with
    zero bindings, [Some []], is another result than [None]: it is returned
    exactly for a template of literal words on these very words. *)
Theorem match_total (pattern source : list string) :
  (forall bindings,
     match_ pattern source = Some bindings ->
     conforms pattern source bindings) /\
  (match_ pattern source = None <->
   forall bindings, ~ conforms pattern source bindings) /\
  (match_ pattern source = Some [] <->
   Forall is_literal pattern /\ source = pattern).
Proof.
  split; [|split].
  - intros bindings. apply match_sound.
  - split.
    + intros H bindings Hc. apply match_complete in Hc.
      destruct Hc as [b Hb]. congruence.
    + intros H. destruct (match_ pattern source) as [b|] eqn:E; [|reflexivity].
      destruct (H b (match_sound _ _ _ E)).
  - split.
    + intros H. pose proof (match_bindings _ _ _ H) as Hw. simpl in Hw.
      symmetry in Hw. apply no_wildcards_literal in Hw.
      split; [exact Hw|]. apply (match_literals _ _ _ Hw H).
    + intros [Hl ->]. apply match_itself, Hl.
Qed.

(** C9.  A multi wildcard at the end of a template of literal words takes all
    the remaining input tokens, joined with spaces. *)
Theorem match_trailing_multi (words rest : list string) :
  Forall is_literal words -> rest <> [] ->
  match_ (words ++ ["%"]) (words ++ rest) = Some [Py.join " " rest].
Proof.
  intros Hw Hr. induction Hw as [|w words Hl _ IH].
  - destruct rest as [|x rest]; [contradiction|].
    simpl app. rewrite match_multi. apply try_split_last.
  - simpl app. rewrite (match_literal _ _ _ Hl), String.eqb_refl. exact IH.
Qed.

Lemma match_who_directed :
  match_ ["who"; "directed"; "%"] ["who"; "directed"; "the"; "dark"; "knight"]
  = Some ["the dark knight"].
Proof.
  apply (match_trailing_multi ["who"; "directed"] ["the"; "dark"; "knight"]).
  - repeat constructor.
  - discriminate.
Defined.

(** ** The monad *)

Lemma bind_inv_ok {A B} (c : M A) (k : A -> M B) (t : list event) (b : B) :
  bind c k = (t, Ok b) ->
  exists t1 a t2, c = (t1, Ok a) /\ k a = (t2, Ok b) /\ t = (t1 ++ t2)%list.
Proof.
  destruct c as [t1 [a|e]]; simpl; [|discriminate].
  destruct (k a) as [t2 r] eqn:E. intros [= <- ->].
  exists t1, a, t2. auto.
Qed.

Lemma bind_inv_raise {A B} (c : M A) (k : A -> M B) (t : list event) (e : exn) :
  bind c k = (t, Raise e) ->
  c = (t, Raise e) \/
  exists t1 a t2, c = (t1, Ok a) /\ k a = (t2, Raise e) /\ t = (t1 ++ t2)%list.
Proof.
  destruct c as [t1 [a|e1]]; simpl.
  - destruct (k a) as [t2 r] eqn:E. intros [= <- ->].
    right. exists t1, a, t2. auto.
  - intros [= <- <-]. left. reflexivity.
Qed.

Lemma finish_ok (c : M answers) (t : list event) (a : answers) :
  c = (t, Ok a) -> finish c = (t, Ok (or_default a)).
Proof. intros ->. unfold finish. simpl. rewrite app_nil_r. reflexivity. Qed.

Lemma finish_raise (c : M answers) (t : list event) (e : exn) :
  c = (t, Raise e) -> finish c = (t, Raise e).
Proof. intros ->. reflexivity. Qed.

Lemma finish_inv_ok (c : M answers) (t : list event) (l : list string) :
  finish c = (t, Ok l) -> exists a, c = (t, Ok a) /\ l = or_default a.
Proof.
  destruct c as [t1 [a|e]]; unfold finish; simpl; [|discriminate].
  rewrite app_nil_r. intros [= <- <-]. exists a. auto.
Qed.

Lemma or_default_nonempty (a : answers) : or_default a <> [].
Proof. destruct a as [[|x l]|]; discriminate. Qed.

Lemma or_default_falsy (a : answers) : truthy a = false -> or_default a = NoAnswers.
Proof. destruct a as [[|x l]|]; simpl; [reflexivity|discriminate|reflexivity]. Qed.

Lemma or_default_truthy (a : answers) : truthy a = true -> a = Some (or_default a).
Proof. destruct a as [[|x l]|]; simpl; [discriminate|reflexivity|discriminate]. Qed.

(** ** The dispatcher *)

Lemma search_table_no_match (table : list (list string * handler))
    (src : list string) :
  no_match table src -> search_table table src = ([], Ok NotUnderstood).
Proof.
  unfold no_match. induction 1 as [|[pattern action] table H _ IH]; simpl.
  - reflexivity.
  - simpl in H. rewrite H. exact IH.
Qed.

Lemma search_table_first (table : list (list string * handler))
    (src pattern : list string) (action : handler) (result : list string) :
  first_match table src pattern action result ->
  search_table table src = finish (action result).
Proof.
  intros (before & after & -> & Hb & Hm).
  induction Hb as [|[p0 a0] before H _ IH]; simpl.
  - rewrite Hm. reflexivity.
  - simpl in H. rewrite H. exact IH.
Qed.

(** Either no template matches or there is a first one that does. *)
Lemma match_cases (table : list (list string * handler)) (src : list string) :
  no_match table src \/
  exists pattern action result, first_match table src pattern action result.
Proof.
  induction table as [|[p a] table IH].
  - left. constructor.
  - destruct (match_ p src) as [r|] eqn:E.
    + right. exists p, a, r, [], table. repeat split; [constructor | exact E].
    + destruct IH as [IH | (p' & a' & r' & before & after & -> & Hb & Hm)].
      * left. constructor; assumption.
      * right. exists p', a', r', ((p, a) :: before), after.
        repeat split; [constructor; assumption | exact Hm].
Qed.

Lemma first_match_excludes_no_match (table : list (list string * handler))
    (src pattern : list string) (action : handler) (result : list string) :
  first_match table src pattern action result -> ~ no_match table src.
Proof.
  intros (before & after & -> & _ & Hm) H.
  apply Forall_app in H. destruct H as [_ H].
  apply Forall_inv in H. simpl in H. congruence.
Qed.

(** C2.  The dispatcher tries the entries in their declared order and runs
    the handler of the first entry whose template matches, and nothing else:
    whatever the entries after it are (they may match the query too), the
    events and the outcome of the dispatch are those of that one handler on
    the bindings of that one template. *)
Theorem first_match_wins (before after : list (list string * handler))
    (pattern : list string) (action : handler) (src result : list string) :
  no_match before src ->
  match_ pattern src = Some result ->
  search_table (before ++ (pattern, action) :: after) src
  = finish (action result).
Proof.
  intros Hb Hm. apply (search_table_first _ _ pattern).
  exists before, after. auto.
Qed.

Lemma first_match_wins_overlap :
  match_ (Py.split "who directed _") (Py.split "who directed inception")
  = Some ["inception"] /\
  search_table
    [ (["bye"], bye_action);
      (Py.split "who directed %", director_by_title (offline "k"));
      (Py.split "who directed _", title_by_actor (offline "k")) ]
    (Py.split "who directed inception")
  = ([Request (SearchMovie "inception");
      Print (MsgApiError "Error searching movies" "offline")], Ok NoAnswers).
Proof.
  split; [reflexivity|].
  refine (eq_trans
            (first_match_wins [(["bye"], bye_action)]
               [(Py.split "who directed _", title_by_actor (offline "k"))]
               (Py.split "who directed %") (director_by_title (offline "k"))
               (Py.split "who directed inception") ["inception"] _ _) _).
  - repeat constructor.
  - reflexivity.
  - reflexivity.
Defined.

(** What a dispatch that returns normally returns. *)
Lemma search_table_ok (table : list (list string * handler))
    (src : list string) (t : list event) (l : list string) :
  search_table table src = (t, Ok l) ->
  (no_match table src /\ l = NotUnderstood) \/
  exists pattern action result a,
    first_match table src pattern action result /\
    action result = (t, Ok a) /\ l = or_default a.
Proof.
  intros H. destruct (match_cases table src) as [Hn | (p & a & r & Hf)].
  - rewrite (search_table_no_match _ _ Hn) in H. injection H as <- <-.
    left. auto.
  - rewrite (search_table_first _ _ _ _ _ Hf) in H.
    apply finish_inv_ok in H. destruct H as (ans & Ha & ->).
    right. exists p, a, r, ans. auto.
Qed.

(** C10.  A dispatch that returns normally returns a non-empty list of
    strings: the not-understood sentinel when no template matches, the
    no-answers sentinel when the result of the handler it invoked is falsy,
    and otherwise the non-empty list which that handler returned. *)
Theorem search_result_nonempty (table : list (list string * handler))
    (src : list string) (t : list event) (l : list string) :
  search_table table src = (t, Ok l) ->
  l <> [] /\
  ((no_match table src /\ l = NotUnderstood) \/
   exists pattern action result a,
     first_match table src pattern action result /\
     action result = (t, Ok a) /\
     ((truthy a = false /\ l = NoAnswers) \/ a = Some l)).
Proof.
  intros H. apply search_table_ok in H.
  destruct H as [[Hn ->] | (p & a & r & ans & Hf & Ha & ->)].
  - split; [discriminate|]. left. auto.
  - split; [apply or_default_nonempty|].
    right. exists p, a, r, ans. repeat split; auto.
    destruct (truthy ans) eqn:T.
    + right. apply or_default_truthy, T.
    + left. split; [reflexivity | apply or_default_falsy, T].
Qed.

Lemma search_result_nonempty_year :
  search_pa_list (yearly eight) (Py.split "what movies were made in 2020")
  = ([Request (DiscoverYear "2020")],
     Ok ["m1"; "m2"; "m3"; "m4"; "m5"; "m6"; "m7"; "m8"]) /\
  ["m1"; "m2"; "m3"; "m4"; "m5"; "m6"; "m7"; "m8"] <> [].
Proof.
  assert (E : search_pa_list (yearly eight) (Py.split "what movies were made in 2020")
              = ([Request (DiscoverYear "2020")],
                 Ok ["m1"; "m2"; "m3"; "m4"; "m5"; "m6"; "m7"; "m8"]))
    by reflexivity.
  split; [exact E|].
  exact (proj1 (search_result_nonempty (pa_list (yearly eight)) _ _ _ E)).
Defined.

(** C1 (as stated, refuted).  The sentinels are ordinary lists of strings: a
    database that holds a movie titled like the not-understood sentinel makes
    the dispatcher return that sentinel for a query that a template matches. *)
Lemma not_understood_from_handler :
  search_pa_list (yearly [titled "I don't understand"])
    (Py.split "what movies were made in 2020")
  = ([Request (DiscoverYear "2020")], Ok NotUnderstood) /\
  ~ no_match (pa_list (yearly [titled "I don't understand"]))
      (Py.split "what movies were made in 2020").
Proof.
  split; [reflexivity|].
  intros H. apply Forall_inv in H. discriminate H.
Qed.

(** C1 (amended).  When no template matches, the dispatcher returns the
    not-understood sentinel; when the first matching template's handler
    yields nothing (an empty list or [None]) it returns the no-answers
    sentinel; the two sentinels differ.  Conversely the not-understood
    sentinel is returned only when no template matches or when the handler
    of the first matching template returned that very list. *)
Theorem sentinels_of_dispatch (table : list (list string * handler))
    (src : list string) :
  (no_match table src -> search_table table src = ([], Ok NotUnderstood)) /\
  (forall pattern action result t a,
     first_match table src pattern action result ->
     action result = (t, Ok a) -> truthy a = false ->
     search_table table src = (t, Ok NoAnswers)) /\
  (forall t, search_table table src = (t, Ok NotUnderstood) ->
     no_match table src \/
     exists pattern action result,
       first_match table src pattern action result /\
       action result = (t, Ok (Some NotUnderstood))) /\
  NotUnderstood <> NoAnswers.
Proof.
  split; [|split; [|split]].
  - apply search_table_no_match.
  - intros pattern action result t a Hf Ha Ht.
    rewrite (search_table_first _ _ _ _ _ Hf), (finish_ok _ _ _ Ha).
    rewrite (or_default_falsy _ Ht). reflexivity.
  - intros t H. apply search_table_ok in H.
    destruct H as [[Hn _] | (p & a & r & ans & Hf & Ha & Hl)].
    + left. exact Hn.
    + right. exists p, a, r. split; [exact Hf|].
      destruct ans as [[|x l]|]; simpl in Hl; try discriminate Hl.
      rewrite Hl. exact Ha.
  - discriminate.
Qed.

Lemma sentinels_of_dispatch_hello :
  search_pa_list (offline "") ["hello"] = ([], Ok NotUnderstood) /\
  search_pa_list (offline "k") (Py.split "who directed inception")
  = ([Request (SearchMovie "inception");
      Print (MsgApiError "Error searching movies" "offline")], Ok NoAnswers).
Proof.
  split.
  - apply (proj1 (sentinels_of_dispatch (pa_list (offline "")) ["hello"])).
    repeat constructor.
  - reflexivity.
Defined.

(** ** Templates of the table *)

(** Literal words followed by one single wildcard match those words followed
    by exactly one more token, which is the binding. *)
Lemma match_literals_single (words src r : list string) :
  Forall is_literal words ->
  match_ (words ++ ["_"]) src = Some r ->
  exists y, src = (words ++ [y])%list /\ r = [y].
Proof.
  intros Hw. revert src. induction Hw as [|w words Hl _ IH]; intros src.
  - simpl app. rewrite match_single. destruct src as [|y src]; [discriminate|].
    rewrite match_nil. destruct src; [|discriminate].
    intros [= <-]. exists y. auto.
  - simpl app. rewrite (match_literal _ _ _ Hl).
    destruct src as [|x src]; [discriminate|].
    destruct (String.eqb_spec w x) as [<-|]; [|discriminate].
    intros H. destruct (IH _ H) as (y & -> & ->). exists y. auto.
Qed.

Lemma first_match_in (table : list (list string * handler))
    (src pattern : list string) (action : handler) (result : list string) :
  first_match table src pattern action result ->
  In (pattern, action) table /\ match_ pattern src = Some result.
Proof.
  intros (before & after & -> & _ & Hm). split; [|exact Hm].
  apply in_or_app. right. left. reflexivity.
Qed.

(** ** Running without an API key *)

Section NoKey.

Variable W : World.
Hypothesis key_absent : TMDB_API_KEY W = "".

Lemma no_key_true : no_key W = true.
Proof. unfold no_key. rewrite key_absent. reflexivity. Qed.

(** Without a key a helper returns its empty value and sends nothing. *)
Ltac keyless := simpl; rewrite ?no_key_true; simpl; try reflexivity.

Lemma keyless_title_by_year (y : string) :
  title_by_year W [y] = ([], Ok (Some NoAnswers)).
Proof. unfold title_by_year, search_movies_by_year. keyless. Qed.

Lemma keyless_title_by_year_range (a b : string) :
  title_by_year_range W [a; b] = ([], Ok (Some NoAnswers)).
Proof. unfold title_by_year_range, search_movies_by_year_range. keyless. Qed.

Lemma keyless_title_before_year (y : string) (n : Z) :
  Py.int y = Some n -> Py.str (n - 1) <> None ->
  title_before_year W [y] = ([], Ok (Some NoAnswers)).
Proof.
  intros Hi Hs.
  unfold title_before_year, int_of_first, str_of, search_movies_by_year_range.
  cbn [index nth_error bind ret app]. rewrite Hi. cbn [bind ret app].
  destruct (Py.str (n - 1)) as [s|]; [|contradiction]. keyless.
Qed.

Lemma str_current_year : Py.str 2025 = Some "2025".
Proof. reflexivity. Qed.

Lemma keyless_title_after_year (y : string) (n : Z) :
  Py.int y = Some n -> Py.str (n + 1) <> None ->
  title_after_year W [y] = ([], Ok (Some NoAnswers)).
Proof.
  intros Hi Hs.
  unfold title_after_year, int_of_first, str_of, search_movies_by_year_range.
  cbn [index nth_error bind ret app]. rewrite Hi, str_current_year.
  cbn [bind ret app].
  destruct (Py.str (n + 1)) as [s|]; [|contradiction]. keyless.
Qed.

Lemma keyless_director_by_title (x : string) :
  director_by_title W [x] = ([], Ok (Some NoAnswers)).
Proof. unfold director_by_title, search_movies_by_title. keyless. Qed.

Lemma keyless_title_by_director (x : string) :
  title_by_director W [x] = ([], Ok (Some NoAnswers)).
Proof. unfold title_by_director, search_person. keyless. Qed.

Lemma keyless_actors_by_title (x : string) :
  actors_by_title W [x] = ([], Ok (Some NoAnswers)).
Proof. unfold actors_by_title, search_movies_by_title. keyless. Qed.

Lemma keyless_year_by_title (x : string) :
  year_by_title W [x] = ([], Ok (Some NoAnswers)).
Proof. unfold year_by_title, search_movies_by_title. keyless. Qed.

Lemma keyless_title_by_actor (x : string) :
  title_by_actor W [x] = ([], Ok (Some NoAnswers)).
Proof. unfold title_by_actor, search_person. keyless. Qed.

End NoKey.

Example no_key_year_not_a_number :
  search_pa_list (offline "") (Py.split "what movies were made before christmas")
  = ([], Raise ValueError).
Proof. reflexivity. Qed.

(** A year of as many digits as [int] still reads, whose successor [str]
    does not print. *)
Example no_key_year_too_long :
  search_pa_list (offline "")
    ["what"; "movies"; "were"; "made"; "after"; repeat_char "9" 4300]
  = ([], Raise ValueError) /\
  search_pa_list (offline "")
    ["what"; "movies"; "were"; "made"; "after"; repeat_char "9" 4299]
  = ([], Ok NoAnswers) /\
  Py.int (repeat_char "9" 4301) = None.
Proof. vm_compute. repeat split. Qed.

(** C3 (as stated, refuted).  With no key configured the query [bye] still
    raises: its handler is the termination signal. *)
Lemma no_key_bye_raises :
  TMDB_API_KEY (offline "") = "" /\
  search_pa_list (offline "") ["bye"] = ([], Raise KeyboardInterrupt).
Proof. split; reflexivity. Qed.

(** C3 (amended).  With no key configured, and the year of a before/after
    query being a literal that [int] reads and whose neighbour (the year
    before it, the year after it) [str] prints, a dispatch sends no request
    and prints nothing, and it either is [bye], which raises the termination
    signal, or matches no template and returns the not-understood sentinel,
    or matches one and returns the no-answers sentinel. *)
Theorem no_key_dispatch (W : World) (src : list string) :
  TMDB_API_KEY W = "" ->
  (forall y,
     src = ["what"; "movies"; "were"; "made"; "before"; y] ->
     exists n, Py.int y = Some n /\ Py.str (n - 1) <> None) ->
  (forall y,
     src = ["what"; "movies"; "were"; "made"; "after"; y] ->
     exists n, Py.int y = Some n /\ Py.str (n + 1) <> None) ->
  (src = ["bye"] /\ search_pa_list W src = ([], Raise KeyboardInterrupt)) \/
  (no_match (pa_list W) src /\ search_pa_list W src = ([], Ok NotUnderstood)) \/
  (src <> ["bye"] /\ ~ no_match (pa_list W) src /\
   search_pa_list W src = ([], Ok NoAnswers)).
Proof.
  intros Hk Hbefore Hafter. unfold search_pa_list.
  destruct (match_cases (pa_list W) src) as [Hn | (p & a & r & Hf)].
  { right; left. split; [exact Hn | apply search_table_no_match, Hn]. }
  pose proof (first_match_excludes_no_match _ _ _ _ _ Hf) as Hsome.
  rewrite (search_table_first _ _ _ _ _ Hf).
  destruct (first_match_in _ _ _ _ _ Hf) as [Hin Hm]. clear Hf.
  unfold pa_list in Hin. simpl in Hin.
  assert (Hwild : forall x, r = [x] -> src <> ["bye"] ->
            a [x] = ([], Ok (Some NoAnswers)) ->
            src <> ["bye"] /\ ~ no_match (pa_list W) src /\
            finish (a r) = ([], Ok NoAnswers)).
  { intros x -> Hs Ha. repeat split; [exact Hs | exact Hsome |].
    rewrite (finish_ok _ _ _ Ha). reflexivity. }
  assert (Hone : wildcards p = 1 -> exists x, r = [x]).
  { intros Hw. pose proof (match_bindings _ _ _ Hm) as Hl. rewrite Hw in Hl.
    destruct r as [|x [|]]; try discriminate Hl. exists x. reflexivity. }
  assert (Hnb : (match_ p ["bye"] = None) -> src <> ["bye"]).
  { intros Hb ->. congruence. }
  repeat (destruct Hin as [E | Hin]; [injection E as <- <- | ]);
    try contradiction.
  - destruct (Hone eq_refl) as [x Hr]. right; right.
    apply (Hwild x Hr (Hnb eq_refl)), keyless_title_by_year, Hk.
  - right; right. repeat split; [exact (Hnb eq_refl) | exact Hsome |].
    pose proof (match_bindings _ _ _ Hm) as Hl.
    destruct r as [|x [|y [|]]]; try discriminate Hl.
    rewrite (finish_ok _ _ _ (keyless_title_by_year_range W Hk x y)).
    reflexivity.
  - destruct (match_literals_single
                ["what"; "movies"; "were"; "made"; "before"] src r
                ltac:(repeat constructor) Hm) as (y & Hs & Hr).
    destruct (Hbefore y Hs) as (n & Hi & Hn). right; right.
    apply (Hwild y Hr (Hnb eq_refl)), (keyless_title_before_year W Hk y n);
      assumption.
  - destruct (match_literals_single
                ["what"; "movies"; "were"; "made"; "after"] src r
                ltac:(repeat constructor) Hm) as (y & Hs & Hr).
    destruct (Hafter y Hs) as (n & Hi & Hn). right; right.
    apply (Hwild y Hr (Hnb eq_refl)), (keyless_title_after_year W Hk y n);
      assumption.
  - destruct (Hone eq_refl) as [x Hr]. right; right.
    apply (Hwild x Hr (Hnb eq_refl)), keyless_director_by_title, Hk.
  - destruct (Hone eq_refl) as [x Hr]. right; right.
    apply (Hwild x Hr (Hnb eq_refl)), keyless_director_by_title, Hk.
  - destruct (Hone eq_refl) as [x Hr]. right; right.
    apply (Hwild x Hr (Hnb eq_refl)), keyless_title_by_director, Hk.
  - destruct (Hone eq_refl) as [x Hr]. right; right.
    apply (Hwild x Hr (Hnb eq_refl)), keyless_actors_by_title, Hk.
  - destruct (Hone eq_refl) as [x Hr]. right; right.
    apply (Hwild x Hr (Hnb eq_refl)), keyless_year_by_title, Hk.
  - destruct (Hone eq_refl) as [x Hr]. right; right.
    apply (Hwild x Hr (Hnb eq_refl)), keyless_title_by_actor, Hk.
  - destruct (match_literals ["bye"] src r ltac:(repeat constructor) Hm)
      as [Hs _].
    left. split; [exact Hs | reflexivity].
Qed.

Lemma no_key_dispatch_inception :
  search_pa_list (offline "") (Py.split "who directed inception")
  = ([], Ok NoAnswers) /\
  search_pa_list (offline "") (Py.split "what movies were made before 2000")
  = ([], Ok NoAnswers).
Proof.
  split.
  - destruct (no_key_dispatch (offline "") (Py.split "who directed inception")
                eq_refl) as [[E _] | [[N _] | [_ [_ R]]]].
    + intros y E; discriminate E.
    + intros y E; discriminate E.
    + discriminate E.
    + exfalso. apply Forall_inv_tail, Forall_inv_tail, Forall_inv_tail,
        Forall_inv_tail, Forall_inv in N. discriminate N.
    + exact R.
  - destruct (no_key_dispatch (offline "")
                (Py.split "what movies were made before 2000")
                eq_refl) as [[E _] | [[N _] | [_ [_ R]]]].
    + intros y E. injection E as <-. exists 2000%Z.
      split; [reflexivity | discriminate].
    + intros y E; discriminate E.
    + discriminate E.
    + exfalso. apply Forall_inv_tail, Forall_inv_tail, Forall_inv in N.
      discriminate N.
    + exact R.
Defined.

(** ** Truncation *)

Lemma mapM_length {A B} (f : A -> M B) (l : list A) (t : list event)
    (ys : list B) :
  mapM f l = (t, Ok ys) -> List.length ys = List.length l.
Proof.
  revert t ys. induction l as [|x l IH]; intros t ys; simpl.
  - intros [= <- <-]. reflexivity.
  - intros H. apply bind_inv_ok in H. destruct H as (t1 & y & t2 & _ & H & _).
    apply bind_inv_ok in H. destruct H as (t3 & ys' & t4 & H1 & H2 & _).
    injection H2 as _ <-. simpl. f_equal. eapply IH, H1.
Qed.

Lemma mapM_firstn_length {A B} (f : A -> M B) (n : nat) (l : list A)
    (t : list event) (ys : list B) :
  mapM f (firstn n l) = (t, Ok ys) -> List.length ys <= n.
Proof.
  intros H. apply mapM_length in H. rewrite H. apply firstn_le_length.
Qed.

Lemma or_no_answers_length (l0 l : list string) (n : nat) :
  or_no_answers l0 = Some l -> List.length l0 <= n -> 1 <= n ->
  List.length l <= n.
Proof.
  unfold or_no_answers. destruct l0; simpl; intros [= <-]; simpl; lia.
Qed.

Lemma ret_inv_ok {A} (a b : A) (t : list event) :
  ret a = (t, Ok b) -> t = [] /\ a = b.
Proof. intros [= <- <-]. auto. Qed.

Lemma some_inv {A} (a b : A) : Some a = Some b -> a = b.
Proof. intros [= <-]. reflexivity. Qed.

(** Inversion of a computation that returned normally, step by step. *)
Ltac invert_ok :=
  repeat match goal with
  | H : bind _ _ = (_, Ok _) |- _ =>
      apply bind_inv_ok in H; destruct H as (? & ? & ? & ? & H & ?)
  | H : ret _ = (_, Ok _) |- _ => apply ret_inv_ok in H; destruct H as [? H]
  | H : raise _ = (_, Ok _) |- _ => discriminate H
  | H : match ?x with _ => _ end = _ |- _ => destruct x eqn:?
  | H : Some _ = Some _ |- _ => apply some_inv in H
  | H : _ = ?x |- _ => is_var x; subst x
  end.

Ltac at_most_ten :=
  first
    [ apply firstn_le_length
    | eapply mapM_firstn_length; eassumption
    | eapply or_no_answers_length;
      [eassumption | eapply mapM_firstn_length; eassumption | lia]
    | simpl; lia ].

Section Bounds.

Variable W : World.
Variables (matches : list string) (t : list event) (l : list string).

Lemma ten_title_by_year :
  title_by_year W matches = (t, Ok (Some l)) -> List.length l <= 10.
Proof. unfold title_by_year, titles_of. intros H. invert_ok; at_most_ten. Qed.

Lemma ten_title_by_year_range :
  title_by_year_range W matches = (t, Ok (Some l)) -> List.length l <= 10.
Proof.
  unfold title_by_year_range, titles_of. intros H. invert_ok; at_most_ten.
Qed.

Lemma ten_title_before_year :
  title_before_year W matches = (t, Ok (Some l)) -> List.length l <= 10.
Proof.
  unfold title_before_year, titles_of. intros H. invert_ok; at_most_ten.
Qed.

Lemma ten_title_after_year :
  title_after_year W matches = (t, Ok (Some l)) -> List.length l <= 10.
Proof.
  unfold title_after_year, titles_of. intros H. invert_ok; at_most_ten.
Qed.

Lemma ten_title_by_director :
  title_by_director W matches = (t, Ok (Some l)) -> List.length l <= 10.
Proof. unfold title_by_director. intros H. invert_ok; at_most_ten. Qed.

Lemma ten_actors_by_title :
  actors_by_title W matches = (t, Ok (Some l)) -> List.length l <= 10.
Proof. unfold actors_by_title. intros H. invert_ok; at_most_ten. Qed.

Lemma ten_year_by_title :
  year_by_title W matches = (t, Ok (Some l)) -> List.length l <= 10.
Proof. unfold year_by_title. intros H. invert_ok; at_most_ten. Qed.

Lemma ten_title_by_actor :
  title_by_actor W matches = (t, Ok (Some l)) -> List.length l <= 10.
Proof.
  unfold title_by_actor, titles_of. intros H. invert_ok; at_most_ten.
Qed.

End Bounds.

(** ** One iteration of the console loop *)

Lemma same_true (a : list string) : same a a = true.
Proof. unfold same. destruct (list_eq_dec string_dec a a); congruence. Qed.

Lemma same_false (a b : list string) : a <> b -> same a b = false.
Proof. unfold same. destruct (list_eq_dec string_dec a b); congruence. Qed.

Lemma slice_to_firstn {A} (n : Z) (l : list A) :
  (0 <= n)%Z -> slice_to n l = firstn (Z.to_nat n) l.
Proof.
  intros H. unfold slice_to. destruct (Z.leb_spec 0 n); [reflexivity | lia].
Qed.

(** Answers that are no sentinel, before and after the slice, are shown as
    the first [result_limit] of them. *)
Lemma show_answers_found (result_limit : Z) (answers : list string) :
  (0 <= result_limit)%Z ->
  answers <> NotUnderstood -> answers <> NoAnswers ->
  firstn (Z.to_nat result_limit) answers <> NotUnderstood ->
  firstn (Z.to_nat result_limit) answers <> NoAnswers ->
  show_answers result_limit answers
  = ([Print (MsgFound (firstn (Z.to_nat result_limit) answers))], Ok tt).
Proof.
  intros Hl H1 H2 H3 H4. unfold show_answers.
  rewrite (same_false _ _ H1), (same_false _ _ H2). simpl orb. cbv iota.
  rewrite (slice_to_firstn _ _ Hl), (same_false _ _ H3), (same_false _ _ H4).
  reflexivity.
Qed.

(** A line that is no [limit] command and has a word is dispatched: its
    words go to [search_pa_list] and the answers to the display. *)
Lemma iteration_dispatch (W : World) (result_limit : Z) (line : string) :
  Py.startswith "limit " (query_of line) = false ->
  query_words line <> [] ->
  iteration W result_limit line
  = (answers <- search_pa_list W (query_words line) ;;
     show_answers result_limit answers ;;; ret result_limit).
Proof.
  intros Hs Hw. unfold iteration. fold (query_of line). rewrite Hs.
  fold (query_words line). destruct (query_words line); [contradiction|].
  reflexivity.
Qed.

Lemma search_pa_list_nil (W : World) :
  search_pa_list W [] = ([], Ok NotUnderstood).
Proof. reflexivity. Qed.

(** C4 (as stated, refuted).  A handler does truncate: of the eleven movies
    the database returns for a year, [title_by_year] keeps the first ten. *)
Lemma title_by_year_drops_eleventh :
  discover_year (yearly eleven) "2020" = Json {| results_of := Some eleven |} /\
  List.length eleven = 11 /\
  title_by_year (yearly eleven) ["2020"]
  = ([Request (DiscoverYear "2020")],
     Ok (Some ["m1"; "m2"; "m3"; "m4"; "m5"; "m6"; "m7"; "m8"; "m9"; "m10"])).
Proof. repeat split. Qed.

(** C4 (amended).  Every handler but [director_by_title] returns at most ten
    answers, and the console loop, after the dispatch, shows the first
    [result_limit] items of what the dispatcher returned (sentinels apart). *)
Theorem truncation_in_handlers_and_loop (W : World) :
  (forall h : handler,
     In h [title_by_year W; title_by_year_range W; title_before_year W;
           title_after_year W; title_by_director W; actors_by_title W;
           year_by_title W; title_by_actor W] ->
     forall matches t l, h matches = (t, Ok (Some l)) -> List.length l <= 10) /\
  (forall result_limit line t answers,
     (0 < result_limit)%Z ->
     Py.startswith "limit " (query_of line) = false ->
     search_pa_list W (query_words line) = (t, Ok answers) ->
     answers <> NotUnderstood -> answers <> NoAnswers ->
     firstn (Z.to_nat result_limit) answers <> NotUnderstood ->
     firstn (Z.to_nat result_limit) answers <> NoAnswers ->
     iteration W result_limit line
     = ((t ++ [Print (MsgFound (firstn (Z.to_nat result_limit) answers))])%list,
        Ok result_limit)).
Proof.
  split.
  - intros h Hin matches t l. simpl in Hin.
    repeat (destruct Hin as [<- | Hin]); try contradiction.
    + apply ten_title_by_year.
    + apply ten_title_by_year_range.
    + apply ten_title_before_year.
    + apply ten_title_after_year.
    + apply ten_title_by_director.
    + apply ten_actors_by_title.
    + apply ten_year_by_title.
    + apply ten_title_by_actor.
  - intros result_limit line t answers Hl Hs Hd H1 H2 H3 H4.
    rewrite iteration_dispatch; [|exact Hs|].
    + rewrite Hd. simpl.
      rewrite show_answers_found by (assumption || lia). reflexivity.
    + intros E. rewrite E, search_pa_list_nil in Hd.
      injection Hd as _ <-. contradiction.
Qed.

Lemma truncation_of_eleven :
  List.length ["m1"; "m2"; "m3"; "m4"; "m5"; "m6"; "m7"; "m8"; "m9"; "m10"] <= 10 /\
  iteration (yearly eleven) 5 "What movies were made in 2020?"
  = ([Request (DiscoverYear "2020");
      Print (MsgFound ["m1"; "m2"; "m3"; "m4"; "m5"])], Ok 5%Z).
Proof.
  split.
  - apply (proj1 (truncation_in_handlers_and_loop (yearly eleven))
             (title_by_year (yearly eleven)) (or_introl eq_refl)
             ["2020"] [Request (DiscoverYear "2020")]).
    reflexivity.
  - apply (proj2 (truncation_in_handlers_and_loop (yearly eleven))
             5%Z "What movies were made in 2020?"
             [Request (DiscoverYear "2020")]
             ["m1"; "m2"; "m3"; "m4"; "m5"; "m6"; "m7"; "m8"; "m9"; "m10"]);
      (reflexivity || discriminate).
Defined.

(** ** Tokens of a line *)

(** When the only question marks of a line are at its end, removing them all
    is stripping them from the right. *)
Lemma remove_char_rstrip (c : ascii) (s : string) :
  has_char c (Py.rstrip_char c s) = false ->
  Py.remove_char c s = Py.rstrip_char c s.
Proof.
  induction s as [|d s IH]; simpl; [reflexivity|].
  destruct (Py.rstrip_char c s) as [|d' r] eqn:E.
  - intros _. rewrite (IH eq_refl). destruct (Ascii.eqb c d); reflexivity.
  - simpl. intros H. apply orb_false_iff in H. destruct H as [Hd Hr].
    rewrite Hd. f_equal. apply IH. exact Hr.
Qed.

(** C6 (as stated, refuted).  A question mark inside the line is removed too,
    so the words that reach the dispatcher are not those of the line with its
    trailing question marks stripped. *)
Lemma inner_question_mark_removed :
  query_words "wh?o directed inception" = ["who"; "directed"; "inception"] /\
  spec_tokens "wh?o directed inception" = ["wh?o"; "directed"; "inception"] /\
  iteration (offline "k") 10 "wh?o directed inception"
  = ([Request (SearchMovie "inception");
      Print (MsgApiError "Error searching movies" "offline");
      Print MsgNoResults], Ok 10%Z).
Proof. repeat split. Qed.

(** C6 (amended).  The words handed to the dispatcher are those of the line
    with every question mark removed, wherever it occurs, lowercased and
    split on whitespace.  They are the words of the line with its trailing
    question marks stripped when the line has no other question mark. *)
Theorem tokens_of_line (W : World) (result_limit : Z) (line : string) :
  Py.startswith "limit " (query_of line) = false ->
  query_words line <> [] ->
  iteration W result_limit line
  = (answers <-
       search_pa_list W (Py.split (Py.lower (Py.remove_char "?" line))) ;;
     show_answers result_limit answers ;;; ret result_limit) /\
  (has_char "?" (Py.rstrip_char "?" line) = false ->
   Py.split (Py.lower (Py.remove_char "?" line)) = spec_tokens line).
Proof.
  intros Hs Hw. split.
  - apply iteration_dispatch; assumption.
  - intros H. unfold spec_tokens. rewrite (remove_char_rstrip _ _ H).
    reflexivity.
Qed.

Lemma tokens_of_who_directed_inception :
  Py.split (Py.lower (Py.remove_char "?" "who directed inception?"))
  = ["who"; "directed"; "inception"] /\
  spec_tokens "who directed inception?" = ["who"; "directed"; "inception"] /\
  iteration (offline "k") 10 "who directed inception?"
  = ([Request (SearchMovie "inception");
      Print (MsgApiError "Error searching movies" "offline");
      Print MsgNoResults], Ok 10%Z).
Proof.
  destruct (tokens_of_line (offline "k") 10 "who directed inception?")
    as [E S]; [reflexivity | discriminate |].
  split; [reflexivity|]. split.
  - symmetry. apply S. reflexivity.
  - rewrite E. reflexivity.
Defined.

(** ** The [limit] command *)

Lemma iteration_limit (W : World) (result_limit : Z) (line : string) :
  Py.startswith "limit " (query_of line) = true ->
  iteration W result_limit line = limit_command result_limit (query_of line).
Proof. intros H. unfold iteration. fold (query_of line). rewrite H. reflexivity. Qed.

Section Limit.

Variable W : World.
Variables (result_limit : Z) (line : string).
Hypothesis is_limit : Py.startswith "limit " (query_of line) = true.

(** A positive integer argument becomes the limit. *)
Lemma limit_sets (arg : string) (n : Z) :
  nth_error (query_words line) 1 = Some arg -> Py.int arg = Some n ->
  (0 < n)%Z ->
  iteration W result_limit line = ([Print (MsgLimitSet n)], Ok n).
Proof.
  intros Ha Hi Hn. rewrite (iteration_limit _ _ _ is_limit).
  unfold limit_command. fold (query_words line). rewrite Ha, Hi.
  destruct (Z.ltb_spec 0 n); [reflexivity | lia].
Qed.

(** An integer argument that is not positive is refused. *)
Lemma limit_not_positive (arg : string) (n : Z) :
  nth_error (query_words line) 1 = Some arg -> Py.int arg = Some n ->
  (n <= 0)%Z ->
  iteration W result_limit line = ([Print MsgLimitNotPositive], Ok result_limit).
Proof.
  intros Ha Hi Hn. rewrite (iteration_limit _ _ _ is_limit).
  unfold limit_command. fold (query_words line). rewrite Ha, Hi.
  destruct (Z.ltb_spec 0 n); [lia | reflexivity].
Qed.

(** An argument that is no integer literal is refused. *)
Lemma limit_not_integer (arg : string) :
  nth_error (query_words line) 1 = Some arg -> Py.int arg = None ->
  iteration W result_limit line = ([Print MsgLimitUsage], Ok result_limit).
Proof.
  intros Ha Hi. rewrite (iteration_limit _ _ _ is_limit).
  unfold limit_command. fold (query_words line). rewrite Ha, Hi. reflexivity.
Qed.

(** So is the word [limit] followed by whitespace only. *)
Lemma limit_no_second_word :
  nth_error (query_words line) 1 = None ->
  iteration W result_limit line = ([Print MsgLimitUsage], Ok result_limit).
Proof.
  intros Ha. rewrite (iteration_limit _ _ _ is_limit).
  unfold limit_command. fold (query_words line). rewrite Ha. reflexivity.
Qed.

(** In every case the command prints one message and raises nothing, and the
    limit changes only when the message is the confirmation. *)
Lemma limit_outcome :
  exists m result_limit',
    iteration W result_limit line = ([Print m], Ok result_limit') /\
    ((exists n, m = MsgLimitSet n /\ result_limit' = n /\ (0 < n)%Z) \/
     (is_usage_error m = true /\ result_limit' = result_limit)).
Proof.
  destruct (nth_error (query_words line) 1) as [arg|] eqn:Ha.
  - destruct (Py.int arg) as [n|] eqn:Hi.
    + destruct (Z.ltb_spec 0 n).
      * exists (MsgLimitSet n), n. split; [eapply limit_sets; eassumption|].
        left. exists n. auto.
      * exists MsgLimitNotPositive, result_limit.
        split; [eapply limit_not_positive; eassumption | right; auto].
    + exists MsgLimitUsage, result_limit.
      split; [eapply limit_not_integer; eassumption | right; auto].
  - exists MsgLimitUsage, result_limit.
    split; [apply limit_no_second_word; assumption | right; auto].
Qed.

End Limit.

(** A query with more answers than the limit shows exactly that many. *)
Lemma iteration_found (W : World) (result_limit : Z) (line : string)
    (t : list event) (answers : list string) :
  (0 < result_limit)%Z ->
  Py.startswith "limit " (query_of line) = false ->
  search_pa_list W (query_words line) = (t, Ok answers) ->
  Z.to_nat result_limit < List.length answers ->
  firstn (Z.to_nat result_limit) answers <> NotUnderstood ->
  firstn (Z.to_nat result_limit) answers <> NoAnswers ->
  iteration W result_limit line
  = ((t ++ [Print (MsgFound (firstn (Z.to_nat result_limit) answers))])%list,
     Ok result_limit) /\
  List.length (firstn (Z.to_nat result_limit) answers) = Z.to_nat result_limit.
Proof.
  intros Hl Hs Hd Hn H3 H4.
  assert (H2 : 2 <= List.length answers) by lia.
  split; [|apply firstn_length_le; lia].
  rewrite iteration_dispatch; [|exact Hs|].
  - rewrite Hd. simpl.
    rewrite show_answers_found; try assumption; try lia; try reflexivity.
    + intros ->. simpl in H2. lia.
    + intros ->. simpl in H2. lia.
  - intros E. rewrite E, search_pa_list_nil in Hd.
    injection Hd as _ <-. simpl in H2. lia.
Qed.

Example limit_five_of_eight :
  query_loop (yearly eight)
    [Line "limit 5"; Line "what movies were made in 2020"]
  = ([Print MsgWelcome;
      Print MsgBlank; Print (MsgLimitSet 5);
      Print MsgBlank; Request (DiscoverYear "2020");
      Print (MsgFound ["m1"; "m2"; "m3"; "m4"; "m5"]);
      Print MsgBlank; Print MsgFarewell], Ok []).
Proof. reflexivity. Qed.

Example limit_minus_one_ignored :
  query_loop (yearly eight)
    [Line "limit 3"; Line "limit -1"; Line "limit x";
     Line "what movies were made in 2020"]
  = ([Print MsgWelcome;
      Print MsgBlank; Print (MsgLimitSet 3);
      Print MsgBlank; Print MsgLimitNotPositive;
      Print MsgBlank; Print MsgLimitUsage;
      Print MsgBlank; Request (DiscoverYear "2020");
      Print (MsgFound ["m1"; "m2"; "m3"]);
      Print MsgBlank; Print MsgFarewell], Ok []).
Proof. reflexivity. Qed.

(** C5.  The word [limit] alone, the command with its argument missing, is
    not taken as a [limit] command: it goes to the dispatcher, matches no
    template and is answered with the not-understood message, which is no
    usage error; the limit stays as it was.  Followed by a blank it is a
    command and gets the usage error. *)
Theorem limit_without_argument (W : World) (result_limit : Z) :
  iteration W result_limit "limit"
  = ([Print MsgNotUnderstood], Ok result_limit) /\
  is_usage_error MsgNotUnderstood = false /\
  iteration W result_limit "limit "
  = ([Print MsgLimitUsage], Ok result_limit).
Proof. repeat split. Qed.

(** ** Exceptions raised while a query is processed *)

Section Raises.

Variable W : World.

Lemma raised_by_app (t0 t : list event) (e : exn) :
  raised_by W t e -> raised_by W (t0 ++ t) e.
Proof.
  destruct e; simpl; auto.
  intros (r & Hin & Hr). exists r. split; [|exact Hr].
  apply in_or_app. right. exact Hin.
Qed.

Lemma rw_ret {A} (a : A) : raises_within W (ret a).
Proof. intros t e [=]. Qed.

Lemma rw_raise {A} (e : exn) :
  e = ValueError \/ e = IndexError \/ e = KeyError ->
  raises_within W (@raise A e).
Proof. intros H t e' [= <- <-]. destruct H as [-> | [-> | ->]]; exact I. Qed.

Lemma rw_emit (ev : event) : raises_within W (emit ev).
Proof. intros t e [=]. Qed.

Lemma rw_bind {A B} (c : M A) (k : A -> M B) :
  raises_within W c -> (forall a, raises_within W (k a)) ->
  raises_within W (bind c k).
Proof.
  intros Hc Hk t e H. apply bind_inv_raise in H.
  destruct H as [H | (t1 & a & t2 & _ & H & ->)].
  - apply Hc, H.
  - apply raised_by_app. eapply Hk, H.
Qed.

Lemma rw_mapM {A B} (f : A -> M B) (l : list A) :
  (forall x, raises_within W (f x)) -> raises_within W (mapM f l).
Proof.
  intros Hf. induction l as [|x l IH]; simpl.
  - apply rw_ret.
  - apply rw_bind; [apply Hf|]. intros y.
    apply rw_bind; [exact IH|]. intros ys. apply rw_ret.
Qed.

Lemma rw_filterM {A B} (c : A -> M bool) (f : A -> M B) (l : list A) :
  (forall x, raises_within W (c x)) -> (forall x, raises_within W (f x)) ->
  raises_within W (filterM c f l).
Proof.
  intros Hc Hf. induction l as [|x l IH]; simpl.
  - apply rw_ret.
  - apply rw_bind; [apply Hc|]. intros [|]; [|exact IH].
    apply rw_bind; [apply Hf|]. intros y.
    apply rw_bind; [exact IH|]. intros ys. apply rw_ret.
Qed.

Lemma rw_index {A} (l : list A) (i : nat) : raises_within W (index l i).
Proof.
  unfold index. destruct (nth_error l i); [apply rw_ret | apply rw_raise; auto].
Qed.

Lemma rw_item {A} (field : option A) : raises_within W (item field).
Proof.
  unfold item. destruct field; [apply rw_ret | apply rw_raise; auto].
Qed.

(** A request raises only when it is interrupted. *)
Lemma rw_try_request {A B} (r : request) (response : http A) (proj : A -> B)
    (what : string) (default : B) :
  (response = Interrupted -> interrupted W r) ->
  raises_within W (try_request r response proj what default).
Proof.
  intros Hr t e. unfold try_request. destruct response; simpl; try discriminate.
  intros [= <- <-]. exists r. split; [left; reflexivity | apply Hr; reflexivity].
Qed.

Ltac helper_raises :=
  match goal with |- raises_within _ (if ?b then _ else _) => destruct b end;
  [apply rw_ret | apply rw_try_request; simpl; auto].

Lemma rw_search_movies_by_title (title : string) :
  raises_within W (search_movies_by_title W title).
Proof. unfold search_movies_by_title. helper_raises. Qed.

Lemma rw_get_movie_details (id : Z) :
  raises_within W (get_movie_details W id).
Proof. unfold get_movie_details. helper_raises. Qed.

Lemma rw_search_movies_by_year (year : string) :
  raises_within W (search_movies_by_year W year).
Proof. unfold search_movies_by_year. helper_raises. Qed.

Lemma rw_search_movies_by_year_range (a b : string) :
  raises_within W (search_movies_by_year_range W a b).
Proof. unfold search_movies_by_year_range. helper_raises. Qed.

Lemma rw_search_person (name : string) :
  raises_within W (search_person W name).
Proof. unfold search_person. helper_raises. Qed.

Lemma rw_get_movies_by_person (id : Z) (role : string) :
  raises_within W (get_movies_by_person W id role).
Proof. unfold get_movies_by_person. helper_raises. Qed.

Lemma rw_int_of_first (matches : list string) :
  raises_within W (int_of_first matches).
Proof.
  unfold int_of_first. apply rw_bind; [apply rw_index|]. intros m.
  destruct (Py.int m); [apply rw_ret | apply rw_raise; auto].
Qed.

Lemma rw_str_of (n : Z) : raises_within W (str_of n).
Proof.
  unfold str_of. destruct (Py.str n); [apply rw_ret | apply rw_raise; auto].
Qed.

(** The steps of a handler, one after the other. *)
Ltac raises :=
  repeat first
    [ apply rw_ret
    | apply rw_index
    | apply rw_item
    | apply rw_int_of_first
    | apply rw_str_of
    | apply rw_search_movies_by_title
    | apply rw_get_movie_details
    | apply rw_search_movies_by_year
    | apply rw_search_movies_by_year_range
    | apply rw_search_person
    | apply rw_get_movies_by_person
    | apply rw_mapM; intros ?
    | apply rw_filterM; intros ?
    | apply rw_bind; [|intros ?]
    | match goal with
      | |- raises_within _ (match ?x with _ => _ end) => destruct x
      end ].

Variable matches : list string.

Lemma rw_title_by_year : raises_within W (title_by_year W matches).
Proof. unfold title_by_year, titles_of. raises. Qed.

Lemma rw_title_by_year_range : raises_within W (title_by_year_range W matches).
Proof. unfold title_by_year_range, titles_of. raises. Qed.

Lemma rw_title_before_year : raises_within W (title_before_year W matches).
Proof. unfold title_before_year, titles_of. raises. Qed.

Lemma rw_title_after_year : raises_within W (title_after_year W matches).
Proof. unfold title_after_year, titles_of. raises. Qed.

Lemma rw_director_by_title : raises_within W (director_by_title W matches).
Proof. unfold director_by_title. raises. Qed.

Lemma rw_title_by_director : raises_within W (title_by_director W matches).
Proof. unfold title_by_director. raises. Qed.

Lemma rw_actors_by_title : raises_within W (actors_by_title W matches).
Proof. unfold actors_by_title. raises. Qed.

Lemma rw_year_by_title : raises_within W (year_by_title W matches).
Proof. unfold year_by_title. raises. Qed.

Lemma rw_title_by_actor : raises_within W (title_by_actor W matches).
Proof. unfold title_by_actor, titles_of. raises. Qed.

End Raises.

Lemma finish_inv_raise (c : M answers) (t : list event) (e : exn) :
  finish c = (t, Raise e) -> c = (t, Raise e).
Proof.
  destruct c as [t1 [a|e1]]; unfold finish; simpl; [discriminate|].
  intros [= <- <-]. reflexivity.
Qed.

(** A dispatch raises either because the query is [bye] or because the
    handler it invoked did. *)
Lemma search_pa_list_raise (W : World) (src : list string) (t : list event)
    (e : exn) :
  search_pa_list W src = (t, Raise e) ->
  (src = ["bye"] /\ t = [] /\ e = KeyboardInterrupt) \/ raised_by W t e.
Proof.
  unfold search_pa_list. intros H.
  destruct (match_cases (pa_list W) src) as [Hn | (p & a & r & Hf)].
  { rewrite (search_table_no_match _ _ Hn) in H. discriminate H. }
  rewrite (search_table_first _ _ _ _ _ Hf) in H. apply finish_inv_raise in H.
  destruct (first_match_in _ _ _ _ _ Hf) as [Hin Hm]. clear Hf.
  unfold pa_list in Hin. simpl in Hin.
  repeat (destruct Hin as [E | Hin]; [injection E as <- <- | ]);
    try contradiction.
  - right. eapply rw_title_by_year, H.
  - right. eapply rw_title_by_year_range, H.
  - right. eapply rw_title_before_year, H.
  - right. eapply rw_title_after_year, H.
  - right. eapply rw_director_by_title, H.
  - right. eapply rw_director_by_title, H.
  - right. eapply rw_title_by_director, H.
  - right. eapply rw_actors_by_title, H.
  - right. eapply rw_year_by_title, H.
  - right. eapply rw_title_by_actor, H.
  - left. destruct (match_literals ["bye"] src r ltac:(repeat constructor) Hm)
      as [Hs _].
    injection H as <- <-. auto.
Qed.

Lemma show_answers_ok (result_limit : Z) (answers : list string) :
  exists m, show_answers result_limit answers = ([Print m], Ok tt).
Proof.
  unfold show_answers.
  destruct (same _ NotUnderstood); [eexists; reflexivity|].
  destruct (same _ NoAnswers); eexists; reflexivity.
Qed.

Lemma limit_command_ok (result_limit : Z) (query : string) :
  exists m result_limit',
    limit_command result_limit query = ([Print m], Ok result_limit').
Proof.
  unfold limit_command.
  destruct (nth_error (Py.split query) 1) as [arg|]; [|eexists _, _; reflexivity].
  destruct (Py.int arg) as [n|]; [|eexists _, _; reflexivity].
  destruct (0 <? n)%Z; eexists _, _; reflexivity.
Qed.

(** An iteration raises either because the query is [bye] or because the
    handler of the query did. *)
Lemma iteration_raise (W : World) (result_limit : Z) (line : string)
    (t : list event) (e : exn) :
  iteration W result_limit line = (t, Raise e) ->
  (query_words line = ["bye"] /\ t = [] /\ e = KeyboardInterrupt) \/
  raised_by W t e.
Proof.
  unfold iteration. fold (query_of line).
  destruct (Py.startswith "limit " (query_of line)).
  { destruct (limit_command_ok result_limit (query_of line)) as (m & l' & ->).
    discriminate. }
  fold (query_words line). destruct (query_words line) as [|w ws] eqn:Ew.
  { discriminate. }
  simpl is_empty. cbv iota. intros H. apply bind_inv_raise in H.
  destruct H as [H | (t1 & a & t2 & _ & H & _)].
  - apply search_pa_list_raise, H.
  - destruct (show_answers_ok result_limit a) as (m & Hm).
    rewrite Hm in H. discriminate H.
Qed.

(** A query that starts with the [limit] command has [limit] as first word. *)
Lemma limit_first_word (q : string) :
  Py.startswith "limit " q = true -> exists rest, Py.split q = "limit" :: rest.
Proof.
  unfold Py.startswith. intros H.
  do 6 (destruct q as [|? q]; [discriminate H|]; simpl in H;
        match type of H with
        | match ?d with _ => _ end = _ => destruct d as [<-|]; [|discriminate H]
        end).
  exists (Py.split q). reflexivity.
Qed.

Lemma iteration_bye (W : World) (result_limit : Z) (line : string) :
  query_words line = ["bye"] ->
  iteration W result_limit line = ([], Raise KeyboardInterrupt).
Proof.
  intros H. rewrite iteration_dispatch.
  - rewrite H. reflexivity.
  - destruct (Py.startswith "limit " (query_of line)) eqn:E; [|reflexivity].
    apply limit_first_word in E. destruct E as [rest E].
    unfold query_words in H. rewrite E in H. discriminate H.
  - rewrite H. discriminate.
Qed.

(** ** The loop *)

Section Loop.

Variable W : World.

(** A turn that reads a line, by the outcome of its iteration. *)
Lemma turn_line (result_limit : Z) (line : string) :
  turn W result_limit (Some (Line line))
  = match iteration W result_limit (Py.strip line) with
    | (t, Ok result_limit') => (Print MsgBlank :: t, Ok (Continue result_limit'))
    | (t, Raise e) =>
        if ends_loop e then (Print MsgBlank :: t, Ok Break)
        else if is_Exception e then
          ((Print MsgBlank :: t ++ [Print (MsgError e)])%list,
           Ok (Continue result_limit))
        else (Print MsgBlank :: t, Raise e)
    end.
Proof.
  unfold turn. cbn [prompt emit ret bind app].
  destruct (iteration W result_limit (Py.strip line)) as [t [l'|e]]; simpl.
  - rewrite ?app_nil_r. reflexivity.
  - destruct e; simpl; rewrite ?app_nil_r; reflexivity.
Qed.

Lemma turn_end_of_input (result_limit : Z) :
  turn W result_limit None = ([Print MsgBlank], Ok Break).
Proof. reflexivity. Qed.

Lemma turn_interrupt (result_limit : Z) :
  turn W result_limit (Some CtrlC) = ([Print MsgBlank], Ok Break).
Proof. reflexivity. Qed.

(** A turn breaks the loop only at the end of the input, at an interrupt at
    the prompt, at the query [bye] or at a request interrupted in flight. *)
Lemma turn_break (result_limit : Z) (i : option input) (t : list event) :
  turn W result_limit i = (t, Ok Break) ->
  i = None \/ i = Some CtrlC \/
  exists line, i = Some (Line line) /\
    (query_words (Py.strip line) = ["bye"] \/
     exists r, In (Request r) t /\ interrupted W r).
Proof.
  destruct i as [[line|]|]; auto.
  rewrite turn_line. intros H. right; right. exists line. split; [reflexivity|].
  destruct (iteration W result_limit (Py.strip line)) as [t0 [l'|e]] eqn:E;
    [discriminate H|].
  apply iteration_raise in E.
  destruct e; simpl in H; try discriminate H; injection H as <-.
  - destruct E as [(Hb & _) | (r & Hin & Hr)]; [left; exact Hb|].
    right. exists r. split; [right; exact Hin | exact Hr].
  - destruct E as [(_ & _ & E) | []]. discriminate E.
Qed.

End Loop.


(** * Further properties *)

(** ** The words of a query *)

Lemma all_chars_app (p : ascii -> bool) (s1 s2 : string) :
  all_chars p (s1 ++ s2) = all_chars p s1 && all_chars p s2.
Proof.
  induction s1 as [|c s1 IH]; simpl; [reflexivity|].
  rewrite IH, andb_assoc. reflexivity.
Qed.

(** The words that [split] cuts are not empty and hold the characters of the
    string that are no whitespace. *)
Lemma split_from_words (p : ascii -> bool) (s cur : string) :
  all_chars (fun c => Py.is_space c || p c) s = true ->
  all_chars p cur = true ->
  Forall (fun w => w <> "" /\ all_chars p w = true) (Py.split_from cur s).
Proof.
  revert cur. induction s as [|c s IH]; intros cur Hs Hc; simpl.
  - destruct cur; [constructor|]. constructor; [|constructor].
    split; [discriminate | exact Hc].
  - simpl in Hs. apply andb_true_iff in Hs. destruct Hs as [Hp Hs].
    destruct (Py.is_space c) eqn:E.
    + destruct cur as [|d cur].
      * apply IH; [exact Hs | reflexivity].
      * constructor; [split; [discriminate | exact Hc]|].
        apply IH; [exact Hs | reflexivity].
    + apply IH; [exact Hs|]. rewrite all_chars_app, Hc. simpl.
      simpl in Hp. rewrite Hp. reflexivity.
Qed.

Lemma lower_char_not_upper (c : ascii) : is_upper (Py.lower_char c) = false.
Proof. destruct c as [[] [] [] [] [] [] [] []]; reflexivity. Qed.

Lemma lower_char_question (c : ascii) :
  Ascii.eqb c "?" = false -> Ascii.eqb (Py.lower_char c) "?" = false.
Proof. destruct c as [[] [] [] [] [] [] [] []]; intros H; (reflexivity || exact H). Qed.

Lemma remove_char_cons (c d : ascii) (s : string) :
  Py.remove_char c (String d s)
  = if Ascii.eqb c d then Py.remove_char c s
    else String d (Py.remove_char c s).
Proof. reflexivity. Qed.

Lemma query_chars (line : string) :
  all_chars (fun c => Py.is_space c || word_char c) (query_of line) = true.
Proof.
  unfold query_of. induction line as [|c line IH]; [reflexivity|].
  rewrite remove_char_cons. destruct (Ascii.eqb "?" c) eqn:E; [exact IH|].
  cbn [Py.lower all_chars]. rewrite IH, andb_true_r. unfold word_char.
  rewrite lower_char_not_upper, lower_char_question.
  - destruct (Py.is_space (Py.lower_char c)); reflexivity.
  - rewrite Ascii.eqb_sym. exact E.
Qed.

(** X1.  For every line (of characters below 256, as all strings here),
    every word handed to the dispatcher is non-empty and holds no whitespace,
    no question mark and no capital letter. *)
Theorem query_words_clean (line : string) :
  Forall (fun w => w <> "" /\ all_chars word_char w = true) (query_words line).
Proof.
  unfold query_words, Py.split. apply split_from_words.
  - apply query_chars.
  - reflexivity.
Qed.

(** ** The dispatch, case by case *)

(** A property of the dispatch of a query follows from the same property of
    each way the table can route it: to no handler, to [bye_action], or to a
    handler of a template with the bindings that the template gives it. *)
Lemma dispatch_cases (W : World) (src : list string)
    (Q : M (list string) -> Prop) :
  (no_match (pa_list W) src -> Q ([], Ok NotUnderstood)) ->
  (src = ["bye"] -> Q ([], Raise KeyboardInterrupt)) ->
  (forall x, Q (finish (title_by_year W [x]))) ->
  (forall a b, Q (finish (title_by_year_range W [a; b]))) ->
  (forall y, src = ["what"; "movies"; "were"; "made"; "before"; y] ->
             Q (finish (title_before_year W [y]))) ->
  (forall y, src = ["what"; "movies"; "were"; "made"; "after"; y] ->
             Q (finish (title_after_year W [y]))) ->
  (forall x, Q (finish (director_by_title W [x]))) ->
  (forall x, Q (finish (title_by_director W [x]))) ->
  (forall x, Q (finish (actors_by_title W [x]))) ->
  (forall x, Q (finish (year_by_title W [x]))) ->
  (forall x, Q (finish (title_by_actor W [x]))) ->
  Q (search_pa_list W src).
Proof.
  intros Hnone Hbye H1 H2 H3 H4 H5 H6 H7 H8 H9. unfold search_pa_list.
  destruct (match_cases (pa_list W) src) as [Hn | (p & a & r & Hf)].
  { rewrite (search_table_no_match _ _ Hn). apply Hnone, Hn. }
  rewrite (search_table_first _ _ _ _ _ Hf).
  destruct (first_match_in _ _ _ _ _ Hf) as [Hin Hm]. clear Hf.
  unfold pa_list in Hin. simpl in Hin.
  assert (Hone : wildcards p = 1 -> exists x, r = [x]).
  { intros Hw. pose proof (match_bindings _ _ _ Hm) as Hl. rewrite Hw in Hl.
    destruct r as [|x [|]]; try discriminate Hl. exists x. reflexivity. }
  repeat (destruct Hin as [E | Hin]; [injection E as <- <- | ]);
    try contradiction.
  - destruct (Hone eq_refl) as [x ->]. apply H1.
  - pose proof (match_bindings _ _ _ Hm) as Hl.
    destruct r as [|x [|y [|]]]; try discriminate Hl. apply H2.
  - destruct (match_literals_single
                ["what"; "movies"; "were"; "made"; "before"] src r
                ltac:(repeat constructor) Hm) as (y & Hs & ->).
    apply H3, Hs.
  - destruct (match_literals_single
                ["what"; "movies"; "were"; "made"; "after"] src r
                ltac:(repeat constructor) Hm) as (y & Hs & ->).
    apply H4, Hs.
  - destruct (Hone eq_refl) as [x ->]. apply H5.
  - destruct (Hone eq_refl) as [x ->]. apply H5.
  - destruct (Hone eq_refl) as [x ->]. apply H6.
  - destruct (Hone eq_refl) as [x ->]. apply H7.
  - destruct (Hone eq_refl) as [x ->]. apply H8.
  - destruct (Hone eq_refl) as [x ->]. apply H9.
  - destruct (match_literals ["bye"] src r ltac:(repeat constructor) Hm)
      as [Hs ->].
    apply Hbye, Hs.
Qed.

(** ** When every request fails *)

Section Unreachable.

Variable W : World.
Hypothesis key_set : no_key W = false.
Hypothesis down : unreachable W.

Ltac fails_with :=
  unfold gave_up; simpl; rewrite key_set; unfold try_request;
  destruct down as (D1 & D2 & D3 & D4 & D5 & D6);
  match goal with
  | |- context [search_movie W ?q] => destruct (D1 q) as [e [-> He]]
  | |- context [discover_year W ?y] => destruct (D3 y) as [e [-> He]]
  | |- context [discover_range W ?a ?b] => destruct (D4 a b) as [e [-> He]]
  | |- context [search_person_named W ?q] => destruct (D5 q) as [e [-> He]]
  end;
  eexists _, _, _; split; [reflexivity | eassumption].

Lemma down_title_by_year (y : string) : gave_up (title_by_year W [y]).
Proof. unfold title_by_year, search_movies_by_year. fails_with. Qed.

Lemma down_title_by_year_range (a b : string) :
  gave_up (title_by_year_range W [a; b]).
Proof. unfold title_by_year_range, search_movies_by_year_range. fails_with. Qed.

Lemma down_title_before_year (y : string) (n : Z) :
  Py.int y = Some n -> Py.str (n - 1) <> None ->
  gave_up (title_before_year W [y]).
Proof.
  intros Hi Hs.
  unfold title_before_year, int_of_first, str_of, search_movies_by_year_range.
  cbn [index nth_error bind ret app]. rewrite Hi. cbn [bind ret app].
  destruct (Py.str (n - 1)) as [s|]; [|contradiction]. fails_with.
Qed.

Lemma down_title_after_year (y : string) (n : Z) :
  Py.int y = Some n -> Py.str (n + 1) <> None ->
  gave_up (title_after_year W [y]).
Proof.
  intros Hi Hs.
  unfold title_after_year, int_of_first, str_of, search_movies_by_year_range.
  cbn [index nth_error bind ret app]. rewrite Hi, str_current_year.
  cbn [bind ret app].
  destruct (Py.str (n + 1)) as [s|]; [|contradiction]. fails_with.
Qed.

Lemma down_director_by_title (x : string) : gave_up (director_by_title W [x]).
Proof. unfold director_by_title, search_movies_by_title. fails_with. Qed.

Lemma down_title_by_director (x : string) : gave_up (title_by_director W [x]).
Proof. unfold title_by_director, search_person. fails_with. Qed.

Lemma down_actors_by_title (x : string) : gave_up (actors_by_title W [x]).
Proof. unfold actors_by_title, search_movies_by_title. fails_with. Qed.

Lemma down_year_by_title (x : string) : gave_up (year_by_title W [x]).
Proof. unfold year_by_title, search_movies_by_title. fails_with. Qed.

Lemma down_title_by_actor (x : string) : gave_up (title_by_actor W [x]).
Proof. unfold title_by_actor, search_person. fails_with. Qed.

End Unreachable.

Lemma gave_up_finish (c : M answers) :
  gave_up c ->
  exists r what e,
    finish c = ([Request r; Print (MsgApiError what e)], Ok NoAnswers) /\
    plain e.
Proof.
  intros (r & what & e & -> & He). exists r, what, e. split; [reflexivity|exact He].
Qed.

(** X2.  With a key set and every request failing with a plain text, a
    dispatch never raises because of the failure: a query that matches a
    template sends exactly one request, prints its one diagnostic and returns
    the no-answers sentinel (the year of a before/after query being a
    literal that [int] reads and whose neighbour [str] prints); [bye] still
    raises the termination signal and an unmatched query is not
    understood. *)
Theorem unreachable_dispatch (W : World) (src : list string) :
  no_key W = false -> unreachable W ->
  (forall y,
     src = ["what"; "movies"; "were"; "made"; "before"; y] ->
     exists n, Py.int y = Some n /\ Py.str (n - 1) <> None) ->
  (forall y,
     src = ["what"; "movies"; "were"; "made"; "after"; y] ->
     exists n, Py.int y = Some n /\ Py.str (n + 1) <> None) ->
  (src = ["bye"] /\ search_pa_list W src = ([], Raise KeyboardInterrupt)) \/
  (no_match (pa_list W) src /\ search_pa_list W src = ([], Ok NotUnderstood)) \/
  (exists r what e,
     search_pa_list W src
     = ([Request r; Print (MsgApiError what e)], Ok NoAnswers) /\
     plain e).
Proof.
  intros Hk Hd Hbefore Hafter.
  pattern (search_pa_list W src). apply dispatch_cases.
  - intros Hn. right; left. auto.
  - intros Hs. left. auto.
  - intros x. right; right. apply gave_up_finish, down_title_by_year; assumption.
  - intros a b. right; right.
    apply gave_up_finish, down_title_by_year_range; assumption.
  - intros y Hs. destruct (Hbefore y Hs) as (n & Hi & Hn). right; right.
    apply gave_up_finish, (down_title_before_year W Hk Hd y n); assumption.
  - intros y Hs. destruct (Hafter y Hs) as (n & Hi & Hn). right; right.
    apply gave_up_finish, (down_title_after_year W Hk Hd y n); assumption.
  - intros x. right; right.
    apply gave_up_finish, down_director_by_title; assumption.
  - intros x. right; right.
    apply gave_up_finish, down_title_by_director; assumption.
  - intros x. right; right.
    apply gave_up_finish, down_actors_by_title; assumption.
  - intros x. right; right.
    apply gave_up_finish, down_year_by_title; assumption.
  - intros x. right; right.
    apply gave_up_finish, down_title_by_actor; assumption.
Qed.

Lemma offline_unreachable (key : string) : unreachable (offline key).
Proof. repeat split; intros; eexists; split; reflexivity. Qed.

Lemma unreachable_dispatch_actor :
  search_pa_list (offline "k") (Py.split "in what movies did tom hanks appear")
  = ([Request (SearchPerson "tom hanks");
      Print (MsgApiError "Error searching person" "offline")], Ok NoAnswers).
Proof.
  destruct (unreachable_dispatch (offline "k")
              (Py.split "in what movies did tom hanks appear")
              eq_refl (offline_unreachable "k"))
    as [[E _] | [[N _] | (r & what & e & R & _)]].
  - intros y E; discriminate E.
  - intros y E; discriminate E.
  - discriminate E.
  - exfalso. do 9 apply Forall_inv_tail in N. apply Forall_inv in N.
    discriminate N.
  - reflexivity.
Defined.

(** ** The events of a computation *)

Section Events.

Variable W : World.
Variable P : event -> Prop.

(** Either no helper sends anything, or what helpers do is allowed by [P]. *)
Hypothesis helpers : no_key W = true \/ (forall ev, api_event ev -> P ev).

Lemma ev_ret {A} (a : A) : events_in P (ret a).
Proof. constructor. Qed.

Lemma ev_raise {A} (e : exn) : events_in P (@raise A e).
Proof. constructor. Qed.

Lemma ev_bind {A B} (c : M A) (k : A -> M B) :
  events_in P c -> (forall a, events_in P (k a)) -> events_in P (bind c k).
Proof.
  unfold events_in. intros Hc Hk. destruct c as [t [a|e]]; simpl; [|exact Hc].
  specialize (Hk a). destruct (k a) as [t' r]. simpl in *.
  apply Forall_app. auto.
Qed.

Lemma ev_mapM {A B} (f : A -> M B) (l : list A) :
  (forall x, events_in P (f x)) -> events_in P (mapM f l).
Proof.
  intros Hf. induction l as [|x l IH]; simpl; [apply ev_ret|].
  apply ev_bind; [apply Hf|]. intros y.
  apply ev_bind; [exact IH|]. intros ys. apply ev_ret.
Qed.

Lemma ev_filterM {A B} (c : A -> M bool) (f : A -> M B) (l : list A) :
  (forall x, events_in P (c x)) -> (forall x, events_in P (f x)) ->
  events_in P (filterM c f l).
Proof.
  intros Hc Hf. induction l as [|x l IH]; simpl; [apply ev_ret|].
  apply ev_bind; [apply Hc|]. intros [|]; [|exact IH].
  apply ev_bind; [apply Hf|]. intros y.
  apply ev_bind; [exact IH|]. intros ys. apply ev_ret.
Qed.

Lemma ev_index {A} (l : list A) (i : nat) : events_in P (index l i).
Proof. unfold index. destruct (nth_error l i); constructor. Qed.

Lemma ev_item {A} (field : option A) : events_in P (item field).
Proof. unfold item. destruct field; constructor. Qed.

Lemma ev_try_request {A B} (r : request) (response : http A) (proj : A -> B)
    (what : string) (default : B) :
  (forall ev, api_event ev -> P ev) ->
  events_in P (try_request r response proj what default).
Proof.
  intros HP. unfold try_request, events_in.
  assert (Hr : P (Request r)) by (apply HP; left; eexists; reflexivity).
  destruct response; simpl; repeat constructor; try exact Hr.
  apply HP. right. eexists _, _. reflexivity.
Qed.

Ltac helper_events :=
  match goal with |- events_in _ (if ?b then _ else _) => destruct b eqn:? end;
  [apply ev_ret |
   destruct helpers as [? | ?]; [congruence | apply ev_try_request; assumption]].

Lemma ev_search_movies_by_title (title : string) :
  events_in P (search_movies_by_title W title).
Proof. unfold search_movies_by_title. helper_events. Qed.

Lemma ev_get_movie_details (id : Z) : events_in P (get_movie_details W id).
Proof. unfold get_movie_details. helper_events. Qed.

Lemma ev_search_movies_by_year (year : string) :
  events_in P (search_movies_by_year W year).
Proof. unfold search_movies_by_year. helper_events. Qed.

Lemma ev_search_movies_by_year_range (a b : string) :
  events_in P (search_movies_by_year_range W a b).
Proof. unfold search_movies_by_year_range. helper_events. Qed.

Lemma ev_search_person (name : string) : events_in P (search_person W name).
Proof. unfold search_person. helper_events. Qed.

Lemma ev_get_movies_by_person (id : Z) (role : string) :
  events_in P (get_movies_by_person W id role).
Proof. unfold get_movies_by_person. helper_events. Qed.

Lemma ev_int_of_first (matches : list string) :
  events_in P (int_of_first matches).
Proof.
  unfold int_of_first. apply ev_bind; [apply ev_index|]. intros m.
  destruct (Py.int m); constructor.
Qed.

Lemma ev_str_of (n : Z) : events_in P (str_of n).
Proof. unfold str_of. destruct (Py.str n); constructor. Qed.

Ltac events :=
  repeat first
    [ apply ev_ret
    | apply ev_raise
    | apply ev_index
    | apply ev_item
    | apply ev_int_of_first
    | apply ev_str_of
    | apply ev_search_movies_by_title
    | apply ev_get_movie_details
    | apply ev_search_movies_by_year
    | apply ev_search_movies_by_year_range
    | apply ev_search_person
    | apply ev_get_movies_by_person
    | apply ev_mapM; intros ?
    | apply ev_filterM; intros ?
    | apply ev_bind; [|intros ?]
    | match goal with
      | |- events_in _ (match ?x with _ => _ end) => destruct x
      end ].

(** What every handler of the table does is allowed by [P]. *)
Lemma ev_handlers (pattern : list string) (action : handler)
    (matches : list string) :
  In (pattern, action) (pa_list W) -> events_in P (action matches).
Proof.
  unfold pa_list. simpl. intros Hin.
  repeat (destruct Hin as [E | Hin]; [injection E as _ <- | ]);
    try contradiction.
  - unfold title_by_year, titles_of. events.
  - unfold title_by_year_range, titles_of. events.
  - unfold title_before_year, titles_of. events.
  - unfold title_after_year, titles_of. events.
  - unfold director_by_title. events.
  - unfold director_by_title. events.
  - unfold title_by_director. events.
  - unfold actors_by_title. events.
  - unfold year_by_title. events.
  - unfold title_by_actor, titles_of. events.
  - unfold bye_action. events.
Qed.

Lemma ev_search_table (table : list (list string * handler))
    (src : list string) :
  (forall pattern action matches,
     In (pattern, action) table -> events_in P (action matches)) ->
  events_in P (search_table table src).
Proof.
  induction table as [|[p a] table IH]; intros H; simpl; [apply ev_ret|].
  destruct (match_ p src) as [r|].
  - apply ev_bind; [apply (H p); left; reflexivity|]. intros x. apply ev_ret.
  - apply IH. intros p' a' m Hin. apply (H p'). right. exact Hin.
Qed.

Lemma ev_search_pa_list (src : list string) :
  events_in P (search_pa_list W src).
Proof. apply ev_search_table. intros p a m. apply ev_handlers. Qed.

(** With every message allowed too, so is a whole session. *)
Hypothesis prints : forall m, P (Print m).

Lemma ev_emit_print (m : message) : events_in P (emit (Print m)).
Proof. constructor; [apply prints | constructor]. Qed.

Lemma ev_iteration (result_limit : Z) (line : string) :
  events_in P (iteration W result_limit line).
Proof.
  unfold iteration. destruct (Py.startswith _ _).
  - destruct (limit_command_ok result_limit (Py.lower (Py.remove_char "?" line)))
      as (m & l' & ->).
    apply ev_emit_print.
  - destruct (is_empty _); [apply ev_ret|].
    apply ev_bind; [apply ev_search_pa_list|]. intros a.
    destruct (show_answers_ok result_limit a) as (m & ->).
    apply ev_bind; [apply ev_emit_print|]. intros _. apply ev_ret.
Qed.

Lemma ev_turn (result_limit : Z) (i : option input) :
  events_in P (turn W result_limit i).
Proof.
  destruct i as [[line|]|];
    [|repeat constructor; apply prints ..].
  rewrite turn_line. pose proof (ev_iteration result_limit (Py.strip line)) as H.
  unfold events_in in *.
  destruct (iteration W result_limit (Py.strip line)) as [t [l'|e]]; simpl in H.
  - constructor; [apply prints | exact H].
  - destruct e; simpl; constructor; try apply prints; try exact H;
      apply Forall_app; split; try exact H; repeat constructor; apply prints.
Qed.

Lemma ev_loop (inputs : list input) (result_limit : Z) :
  events_in P (loop W result_limit inputs).
Proof.
  revert result_limit. induction inputs as [|i inputs IH]; intros result_limit.
  - cbn [loop]. apply ev_bind; [apply ev_turn | intros _; apply ev_ret].
  - cbn [loop]. apply ev_bind; [apply ev_turn|].
    intros [l'|]; [apply IH | apply ev_ret].
Qed.

Lemma ev_main (inputs : list input) : events_in P (main W inputs).
Proof.
  unfold main, query_loop.
  apply ev_bind; [destruct (no_key W); [apply ev_emit_print | apply ev_ret]|].
  intros _. apply ev_bind; [apply ev_emit_print|]. intros _.
  apply ev_bind; [apply ev_loop|]. intros left.
  apply ev_bind; [apply ev_emit_print|]. intros _. apply ev_ret.
Qed.

End Events.

Lemma requests_none (t : list event) :
  Forall (fun ev => is_request ev = false) t -> requests t = 0.
Proof.
  unfold requests. induction 1 as [|ev t H _ IH]; simpl; [reflexivity|].
  rewrite H. exact IH.
Qed.

(** X3.  Without a key a whole session, whatever is typed, sends no request
    to the database, and the first thing it prints is the warning that the
    key is not set. *)
Theorem no_key_session_silent (W : World) (inputs : list input) :
  TMDB_API_KEY W = "" ->
  requests (fst (main W inputs)) = 0 /\
  hd_error (fst (main W inputs)) = Some (Print MsgWarnNoKey).
Proof.
  intros Hk. pose proof (no_key_true W Hk) as Hn. split.
  - apply requests_none.
    apply (ev_main W (fun ev => is_request ev = false)); [left; exact Hn|].
    reflexivity.
  - unfold main. rewrite Hn. cbn [emit bind].
    destruct (query_loop W inputs) as [t r]. reflexivity.
Qed.

Lemma no_key_session_silent_example :
  main (offline "")
    [Line "who directed inception"; Line "what movies were made before x";
     Line "limit 3"; Line "bye"]
  = ([Print MsgWarnNoKey; Print MsgWelcome;
      Print MsgBlank; Print MsgNoResults;
      Print MsgBlank; Print (MsgError ValueError);
      Print MsgBlank; Print (MsgLimitSet 3);
      Print MsgBlank; Print MsgFarewell], Ok []) /\
  requests (fst (main (offline "")
    [Line "who directed inception"; Line "what movies were made before x";
     Line "limit 3"; Line "bye"])) = 0.
Proof.
  split; [reflexivity|].
  apply (no_key_session_silent (offline "")). reflexivity.
Defined.

(** ** What is shown *)

Lemma api_event_not_found (a : list string) : ~ api_event (Print (MsgFound a)).
Proof.
  intros [[r E] | (what & e & E)]; discriminate E.
Qed.

Lemma same_eq (a b : list string) : same a b = true -> a = b.
Proof. unfold same. destruct (list_eq_dec string_dec a b); [auto|discriminate]. Qed.

Lemma search_pa_list_nonempty (W : World) (src : list string)
    (t : list event) (l : list string) :
  search_pa_list W src = (t, Ok l) -> l <> [].
Proof.
  unfold search_pa_list. intros H. apply search_table_ok in H.
  destruct H as [[_ ->] | (p & a & r & ans & _ & _ & ->)];
    [discriminate | apply or_default_nonempty].
Qed.

Lemma iteration_blank (W : World) (result_limit : Z) (line : string) :
  Py.startswith "limit " (query_of line) = false ->
  query_words line = [] ->
  iteration W result_limit line = ([], Ok result_limit).
Proof.
  intros Hs Hw. unfold iteration. fold (query_of line). rewrite Hs.
  fold (query_words line). rewrite Hw. reflexivity.
Qed.

(** What the display prints for a non-empty list of answers. *)
Lemma show_answers_bound (result_limit : Z) (answers : list string) :
  (0 < result_limit)%Z -> answers <> [] ->
  exists m,
    show_answers result_limit answers = ([Print m], Ok tt) /\
    forall a, m = MsgFound a ->
      1 <= List.length a <= Z.to_nat result_limit.
Proof.
  intros Hl Hne. unfold show_answers.
  destruct (same answers NotUnderstood || same answers NoAnswers) eqn:Es.
  - destruct (same answers NotUnderstood).
    + eexists. split; [reflexivity|]. intros a E. discriminate E.
    + destruct (same answers NoAnswers); [|discriminate Es].
      eexists. split; [reflexivity|]. intros a E. discriminate E.
  - rewrite (slice_to_firstn _ _ (Z.lt_le_incl _ _ Hl)).
    destruct (same (firstn _ answers) NotUnderstood).
    + eexists. split; [reflexivity|]. intros a E. discriminate E.
    + destruct (same (firstn _ answers) NoAnswers).
      * eexists. split; [reflexivity|]. intros a E. discriminate E.
      * eexists. split; [reflexivity|]. intros a E.
        apply (f_equal (fun m => match m with MsgFound l => l | _ => [] end)) in E.
        rewrite <- E, length_firstn.
        destruct answers as [|x answers]; [contradiction|].
        simpl List.length. lia.
Qed.

(** X4.  Whatever the query and the database, a list of results shown by an
    iteration has at least one item and at most [result_limit] items. *)
Theorem found_within_limit (W : World) (result_limit : Z) (line : string)
    (t : list event) (r : res Z) (a : list string) :
  (0 < result_limit)%Z ->
  iteration W result_limit line = (t, r) ->
  In (Print (MsgFound a)) t ->
  1 <= List.length a <= Z.to_nat result_limit.
Proof.
  intros Hl H Hin.
  destruct (Py.startswith "limit " (query_of line)) eqn:Es.
  { destruct (limit_outcome W result_limit line Es)
      as (m & l' & E & [(n & -> & _) | [Hm _]]);
      rewrite E in H; injection H as <- _;
      destruct Hin as [Ein | []]; [discriminate Ein|].
    apply (f_equal (fun ev => match ev with Print m => m | _ => MsgBlank end))
      in Ein. subst m. discriminate Hm. }
  destruct (query_words line) as [|w ws] eqn:Ew.
  { rewrite (iteration_blank _ _ _ Es Ew) in H. injection H as <- _.
    destruct Hin. }
  rewrite iteration_dispatch in H; [|exact Es | rewrite Ew; discriminate].
  pose proof (ev_search_pa_list W api_event (or_intror (fun ev H => H))
                (query_words line)) as Hev.
  unfold events_in in Hev. rewrite Forall_forall in Hev.
  destruct (search_pa_list W (query_words line)) as [t1 [ans|e]] eqn:Ed.
  2:{ injection H as <- _. apply Hev in Hin.
      destruct (api_event_not_found _ Hin). }
  apply search_pa_list_nonempty in Ed.
  destruct (show_answers_bound result_limit ans Hl Ed) as (m & Em & Hm).
  cbn [bind] in H. rewrite Em in H. cbn [bind ret app] in H.
  injection H as <- _.
  apply in_app_or in Hin. destruct Hin as [Hin | [Hin | []]].
  - apply Hev in Hin. destruct (api_event_not_found _ Hin).
  - apply Hm. congruence.
Qed.

Lemma found_within_limit_example :
  iteration (yearly eleven) 3 "what movies were made in 2020"
  = ([Request (DiscoverYear "2020"); Print (MsgFound ["m1"; "m2"; "m3"])],
     Ok 3%Z) /\
  1 <= List.length ["m1"; "m2"; "m3"] <= Z.to_nat 3.
Proof.
  split; [reflexivity|].
  apply (found_within_limit (yearly eleven) 3 "what movies were made in 2020"
           [Request (DiscoverYear "2020"); Print (MsgFound ["m1"; "m2"; "m3"])]
           (Ok 3%Z)).
  - reflexivity.
  - reflexivity.
  - right. left. reflexivity.
Defined.

(** ** How many requests a query costs *)

Lemma requests_app (t1 t2 : list event) :
  requests (t1 ++ t2) = requests t1 + requests t2.
Proof. unfold requests. rewrite filter_app, length_app. reflexivity. Qed.

Section Budget.

Variable W : World.

Lemma sm_ret {A} (n : nat) (a : A) : sends_at_most n (ret a).
Proof. unfold sends_at_most, requests. simpl. lia. Qed.

Lemma sm_raise {A} (n : nat) (e : exn) : sends_at_most n (@raise A e).
Proof. unfold sends_at_most, requests. simpl. lia. Qed.

Lemma sm_bind {A B} (a b n : nat) (c : M A) (k : A -> M B) :
  sends_at_most a c -> (forall x, sends_at_most b (k x)) -> a + b <= n ->
  sends_at_most n (bind c k).
Proof.
  unfold sends_at_most. intros Hc Hk Hn.
  destruct c as [t [x|e]]; cbn [bind fst] in *; [|lia].
  specialize (Hk x). destruct (k x) as [t' r]. cbn [fst] in *.
  rewrite requests_app. lia.
Qed.

Lemma sm_mapM {A B} (n : nat) (f : A -> M B) (l : list A) :
  (forall x, sends_at_most 0 (f x)) -> sends_at_most n (mapM f l).
Proof.
  intros Hf. induction l as [|x l IH]; simpl; [apply sm_ret|].
  apply (sm_bind 0 n); [apply Hf | | lia]. intros y.
  apply (sm_bind n 0); [exact IH | | lia]. intros ys. apply sm_ret.
Qed.

Lemma sm_filterM {A B} (n : nat) (c : A -> M bool) (f : A -> M B)
    (l : list A) :
  (forall x, sends_at_most 0 (c x)) -> (forall x, sends_at_most 0 (f x)) ->
  sends_at_most n (filterM c f l).
Proof.
  intros Hc Hf. induction l as [|x l IH]; simpl; [apply sm_ret|].
  apply (sm_bind 0 n); [apply Hc | | lia]. intros [|]; [|exact IH].
  apply (sm_bind 0 n); [apply Hf | | lia]. intros y.
  apply (sm_bind n 0); [exact IH | | lia]. intros ys. apply sm_ret.
Qed.

Lemma sm_index {A} (n : nat) (l : list A) (i : nat) :
  sends_at_most n (index l i).
Proof. unfold index. destruct (nth_error l i); [apply sm_ret | apply sm_raise]. Qed.

Lemma sm_item {A} (n : nat) (field : option A) : sends_at_most n (item field).
Proof. unfold item. destruct field; [apply sm_ret | apply sm_raise]. Qed.

Lemma sm_int_of_first (n : nat) (matches : list string) :
  sends_at_most n (int_of_first matches).
Proof.
  unfold int_of_first. apply (sm_bind 0 n); [apply sm_index | | lia].
  intros m. destruct (Py.int m); [apply sm_ret | apply sm_raise].
Qed.

(** A helper sends one request, or none without a key. *)
Lemma sm_try_request {A B} (n : nat) (r : request) (response : http A)
    (proj : A -> B) (what : string) (default : B) :
  sends_at_most (S n) (try_request r response proj what default).
Proof.
  unfold try_request, sends_at_most, requests. destruct response; simpl; lia.
Qed.

Ltac one_request :=
  match goal with |- sends_at_most _ (if ?b then _ else _) => destruct b end;
  [apply sm_ret | apply sm_try_request].

Lemma sm_search_movies_by_title (n : nat) (title : string) :
  sends_at_most (S n) (search_movies_by_title W title).
Proof. unfold search_movies_by_title. one_request. Qed.

Lemma sm_get_movie_details (n : nat) (id : Z) :
  sends_at_most (S n) (get_movie_details W id).
Proof. unfold get_movie_details. one_request. Qed.

Lemma sm_search_movies_by_year (n : nat) (year : string) :
  sends_at_most (S n) (search_movies_by_year W year).
Proof. unfold search_movies_by_year. one_request. Qed.

Lemma sm_search_movies_by_year_range (n : nat) (a b : string) :
  sends_at_most (S n) (search_movies_by_year_range W a b).
Proof. unfold search_movies_by_year_range. one_request. Qed.

Lemma sm_search_person (n : nat) (name : string) :
  sends_at_most (S n) (search_person W name).
Proof. unfold search_person. one_request. Qed.

Lemma sm_get_movies_by_person (n : nat) (id : Z) (role : string) :
  sends_at_most (S n) (get_movies_by_person W id role).
Proof. unfold get_movies_by_person. one_request. Qed.

Lemma sm_str_of (n : nat) (z : Z) : sends_at_most n (str_of z).
Proof. unfold str_of. destruct (Py.str z); [apply sm_ret | apply sm_raise]. Qed.

(** A step that sends nothing. *)
Ltac free_step :=
  first [ apply sm_ret | apply sm_raise | apply sm_index | apply sm_item
        | apply sm_int_of_first | apply sm_str_of
        | apply sm_mapM; intros ?; apply sm_item
        | apply sm_filterM; intros ?;
          repeat first [ apply sm_ret | apply sm_item
                       | apply (sm_bind 0 0); [| intros ? | lia] ] ].

(** A step that is a call of a helper. *)
Ltac paid_step :=
  first [ apply sm_search_movies_by_title | apply sm_get_movie_details
        | apply sm_search_movies_by_year
        | apply sm_search_movies_by_year_range
        | apply sm_search_person | apply sm_get_movies_by_person ].

(** The steps of a handler against a budget of requests. *)
Ltac budget :=
  repeat first
    [ free_step
    | match goal with
      | |- sends_at_most ?n (bind _ _) =>
          first [ apply (sm_bind 0 n); [solve [free_step] | intros ? | lia]
                | apply (sm_bind 1 (pred n));
                  [solve [paid_step] | intros ?; cbn [pred] | simpl; lia] ]
      | |- sends_at_most _ (match ?x with _ => _ end) => destruct x
      end ].

Variable matches : list string.

Lemma sm_title_by_year : sends_at_most 1 (title_by_year W matches).
Proof. unfold title_by_year, titles_of. budget. Qed.

Lemma sm_title_by_year_range : sends_at_most 1 (title_by_year_range W matches).
Proof. unfold title_by_year_range, titles_of. budget. Qed.

Lemma sm_title_before_year : sends_at_most 1 (title_before_year W matches).
Proof. unfold title_before_year, titles_of. budget. Qed.

Lemma sm_title_after_year : sends_at_most 1 (title_after_year W matches).
Proof. unfold title_after_year, titles_of. budget. Qed.

Lemma sm_director_by_title : sends_at_most 2 (director_by_title W matches).
Proof. unfold director_by_title. budget. Qed.

Lemma sm_title_by_director : sends_at_most 2 (title_by_director W matches).
Proof. unfold title_by_director. budget. Qed.

Lemma sm_actors_by_title : sends_at_most 2 (actors_by_title W matches).
Proof. unfold actors_by_title. budget. Qed.

Lemma sm_year_by_title : sends_at_most 1 (year_by_title W matches).
Proof. unfold year_by_title. budget. Qed.

Lemma sm_title_by_actor : sends_at_most 2 (title_by_actor W matches).
Proof. unfold title_by_actor, titles_of. budget. Qed.

End Budget.

Lemma sm_finish (n : nat) (c : M answers) :
  sends_at_most n c -> sends_at_most n (finish c).
Proof.
  intros H. unfold finish. apply (sm_bind n 0); [exact H | | lia].
  intros a. apply sm_ret.
Qed.

Lemma sm_weaken {A} (a n : nat) (c : M A) :
  sends_at_most a c -> a <= n -> sends_at_most n c.
Proof. unfold sends_at_most. lia. Qed.

Lemma sm_search_pa_list (W : World) (src : list string) :
  sends_at_most 2 (search_pa_list W src).
Proof.
  pattern (search_pa_list W src). apply dispatch_cases; intros;
    try (apply sm_ret || apply sm_raise); apply sm_finish.
  - apply (sm_weaken 1); [apply sm_title_by_year | lia].
  - apply (sm_weaken 1); [apply sm_title_by_year_range | lia].
  - apply (sm_weaken 1); [apply sm_title_before_year | lia].
  - apply (sm_weaken 1); [apply sm_title_after_year | lia].
  - apply sm_director_by_title.
  - apply sm_title_by_director.
  - apply sm_actors_by_title.
  - apply (sm_weaken 1); [apply sm_year_by_title | lia].
  - apply sm_title_by_actor.
Qed.

Lemma sm_iteration (W : World) (result_limit : Z) (line : string) :
  sends_at_most 2 (iteration W result_limit line).
Proof.
  unfold iteration. destruct (Py.startswith _ _).
  - destruct (limit_command_ok result_limit (Py.lower (Py.remove_char "?" line)))
      as (m & l' & ->).
    unfold sends_at_most, requests. simpl. lia.
  - destruct (is_empty _); [apply sm_ret|].
    apply (sm_bind 2 0); [apply sm_search_pa_list | | lia]. intros a.
    destruct (show_answers_ok result_limit a) as (m & ->).
    unfold sends_at_most, requests. simpl. lia.
Qed.

Lemma sm_turn (W : World) (result_limit : Z) (i : option input) :
  sends_at_most 2 (turn W result_limit i).
Proof.
  destruct i as [[line|]|];
    [|unfold sends_at_most, requests; simpl; lia ..].
  rewrite turn_line. pose proof (sm_iteration W result_limit (Py.strip line)) as H.
  unfold sends_at_most in *.
  destruct (iteration W result_limit (Py.strip line)) as [t [l'|e]]; cbn [fst] in *.
  - exact H.
  - destruct e; cbn [ends_loop is_Exception fst]; try exact H;
      change (Print MsgBlank :: t ++ [Print (MsgError ?e)])%list
        with ([Print MsgBlank] ++ t ++ [Print (MsgError e)])%list;
      rewrite !requests_app; unfold requests at 1 3; simpl; lia.
Qed.

(** X5.  A line typed at the prompt costs at most two requests, so a session
    sends at most twice as many requests as it reads inputs. *)
Theorem session_request_budget (W : World) (inputs : list input) :
  (forall result_limit line,
     requests (fst (iteration W result_limit line)) <= 2) /\
  requests (fst (query_loop W inputs)) <= 2 * List.length inputs.
Proof.
  split; [intros; apply sm_iteration|].
  assert (H : forall inputs result_limit,
            sends_at_most (2 * List.length inputs) (loop W result_limit inputs)).
  { clear inputs. induction inputs as [|i inputs IH]; intros result_limit.
    - cbn [loop]. unfold sends_at_most, requests. simpl. lia.
    - cbn [loop]. apply (sm_bind 2 (2 * List.length inputs));
        [apply sm_turn | | simpl List.length; lia].
      intros [l'|]; [apply IH | apply sm_ret]. }
  unfold query_loop.
  apply (sm_bind 0 (2 * List.length inputs));
    [unfold sends_at_most, requests; simpl; lia | | lia].
  intros _. apply (sm_bind (2 * List.length inputs) 0); [apply H | | lia].
  intros left. apply (sm_bind 0 0); [|intros _; apply sm_ret | lia].
  unfold sends_at_most, requests. simpl. lia.
Qed.

(** ** What handlers return *)

Lemma mapM_truthy {A} (g : A -> M string) (l : list A) (t : list event)
    (ys : list string) :
  mapM g (firstn 10 l) = (t, Ok ys) -> is_empty l = false ->
  truthy (Some ys) = true.
Proof.
  intros H He. apply mapM_length in H.
  destruct l as [|x l]; [discriminate He|].
  destruct ys; [discriminate H | reflexivity].
Qed.

Lemma or_no_answers_truthy (l : list string) : truthy (or_no_answers l) = true.
Proof. destruct l; reflexivity. Qed.

Ltac never_empty :=
  first
    [ reflexivity
    | apply or_no_answers_truthy
    | eapply mapM_truthy; eassumption
    | match goal with
      | H : is_empty ?l = false |- _ =>
          destruct l; [discriminate H | reflexivity]
      end ].

Lemma api_handlers_truthy (W : World) (h : handler) :
  In h (api_handlers W) ->
  forall matches t a, h matches = (t, Ok a) -> truthy a = true.
Proof.
  unfold api_handlers. simpl. intros Hin matches t a.
  repeat (destruct Hin as [<- | Hin]); try contradiction.
  - unfold title_by_year, titles_of. intros H. invert_ok; never_empty.
  - unfold title_by_year_range, titles_of. intros H. invert_ok; never_empty.
  - unfold title_before_year, titles_of. intros H. invert_ok; never_empty.
  - unfold title_after_year, titles_of. intros H. invert_ok; never_empty.
  - unfold director_by_title. intros H. invert_ok; never_empty.
  - unfold title_by_director. intros H. invert_ok; never_empty.
  - unfold actors_by_title. intros H. invert_ok; never_empty.
  - unfold year_by_title. intros H. invert_ok; never_empty.
  - unfold title_by_actor, titles_of. intros H. invert_ok; never_empty.
Qed.

Lemma pa_list_handlers (W : World) (pattern : list string) (action : handler) :
  In (pattern, action) (pa_list W) ->
  In action (api_handlers W) \/ action = bye_action.
Proof.
  unfold pa_list, api_handlers. simpl. intros Hin.
  repeat (destruct Hin as [E | Hin]; [injection E as _ <-; auto 12 | ]).
  contradiction.
Qed.

(** X6.  A handler of the table that returns normally returns a non-empty
    list; so a dispatch that returns normally returns either the
    not-understood sentinel, no template matching, or exactly the list that
    the handler of the first matching template returned: the dispatcher's own
    substitution of the no-answers sentinel never takes place. *)
Theorem handlers_never_empty (W : World) (src : list string) (t : list event)
    (l : list string) :
  search_pa_list W src = (t, Ok l) ->
  (no_match (pa_list W) src /\ l = NotUnderstood) \/
  exists pattern action result,
    first_match (pa_list W) src pattern action result /\
    In action (api_handlers W) /\
    action result = (t, Ok (Some l)) /\ l <> [].
Proof.
  unfold search_pa_list. intros H. apply search_table_ok in H.
  destruct H as [H | (p & a & r & ans & Hf & Ha & ->)]; [left; exact H|].
  right. exists p, a, r.
  destruct (pa_list_handlers W p a (proj1 (first_match_in _ _ _ _ _ Hf)))
    as [Hin | ->]; [|discriminate Ha].
  pose proof (api_handlers_truthy W a Hin r t ans Ha) as Ht.
  repeat split; auto.
  - rewrite <- (or_default_truthy _ Ht). exact Ha.
  - apply or_default_nonempty.
Qed.

Lemma handlers_never_empty_example :
  search_pa_list (yearly eight) (Py.split "what movies were made in 1999")
  = ([Request (DiscoverYear "1999")],
     Ok ["m1"; "m2"; "m3"; "m4"; "m5"; "m6"; "m7"; "m8"]) /\
  title_by_year (yearly eight) ["1999"]
  = ([Request (DiscoverYear "1999")],
     Ok (Some ["m1"; "m2"; "m3"; "m4"; "m5"; "m6"; "m7"; "m8"])).
Proof.
  assert (E : search_pa_list (yearly eight)
                (Py.split "what movies were made in 1999")
              = ([Request (DiscoverYear "1999")],
                 Ok ["m1"; "m2"; "m3"; "m4"; "m5"; "m6"; "m7"; "m8"]))
    by reflexivity.
  split; [exact E|].
  destruct (handlers_never_empty _ _ _ _ E)
    as [[N _] | (p & a & r & _ & _ & _ & _)]; reflexivity.
Defined.

(** ** The result limit *)

(** An iteration that returns leaves the limit as it was, unless it is a
    [limit] command that sets a positive limit and says so. *)
Lemma iteration_limit_after (W : World) (result_limit : Z) (line : string)
    (t : list event) (result_limit' : Z) :
  iteration W result_limit line = (t, Ok result_limit') ->
  result_limit' = result_limit \/
  ((0 < result_limit')%Z /\ t = [Print (MsgLimitSet result_limit')] /\
   Py.startswith "limit " (query_of line) = true).
Proof.
  intros H. destruct (Py.startswith "limit " (query_of line)) eqn:Es.
  - destruct (limit_outcome W result_limit line Es)
      as (m & l' & E & [(n & -> & -> & Hn) | [_ ->]]);
      rewrite E in H; injection H as <- <-; auto.
  - destruct (query_words line) as [|w ws] eqn:Ew.
    + rewrite (iteration_blank _ _ _ Es Ew) in H. injection H as _ <-. auto.
    + rewrite iteration_dispatch in H; [|exact Es | rewrite Ew; discriminate].
      apply bind_inv_ok in H. destruct H as (t1 & a & t2 & _ & H & _).
      apply bind_inv_ok in H. destruct H as (t3 & u & t4 & _ & H & _).
      injection H as _ <-. auto.
Qed.

(** X7.  The result limit stays positive: a turn of the loop that goes on
    hands a positive limit to the next turn, and a limit other than the one
    it got only after printing that it set it. *)
Theorem limit_stays_positive (W : World) (result_limit : Z) (i : option input)
    (t : list event) (result_limit' : Z) :
  (0 < result_limit)%Z ->
  turn W result_limit i = (t, Ok (Continue result_limit')) ->
  (0 < result_limit')%Z /\
  (result_limit' <> result_limit -> In (Print (MsgLimitSet result_limit')) t).
Proof.
  intros Hl H. destruct i as [[line|]|]; [|discriminate H ..].
  rewrite turn_line in H.
  destruct (iteration W result_limit (Py.strip line)) as [t0 [l0|e]] eqn:E.
  - injection H as <- <-. apply iteration_limit_after in E.
    destruct E as [-> | (Hp & -> & _)].
    + split; [exact Hl | contradiction].
    + split; [exact Hp|]. intros _. right. left. reflexivity.
  - destruct e; simpl in H; try discriminate H;
      injection H as _ <-; (split; [exact Hl | contradiction]).
Qed.

Lemma limit_stays_positive_example :
  turn (offline "k") 10 (Some (Line "limit 3"))
  = ([Print MsgBlank; Print (MsgLimitSet 3)], Ok (Continue 3)) /\
  (0 < 3)%Z.
Proof.
  split; [reflexivity|].
  apply (limit_stays_positive (offline "k") 10 (Some (Line "limit 3"))
           [Print MsgBlank; Print (MsgLimitSet 3)] 3); reflexivity.
Defined.

(** ** Answers read from the responses *)

Lemma mapM_item_all {A B} (field : A -> option B) (l : list A) (ys : list B) :
  map field l = map Some ys ->
  mapM (fun x => item (field x)) l = ([], Ok ys).
Proof.
  revert ys. induction l as [|x l IH]; intros [|y ys] H; try discriminate H.
  - reflexivity.
  - simpl in H. injection H as Hx Hl. simpl. rewrite Hx, (IH _ Hl). reflexivity.
Qed.

Lemma mapM_item_missing {A B} (field : A -> option B) (l : list A) :
  In None (map field l) ->
  mapM (fun x => item (field x)) l = ([], Raise KeyError).
Proof.
  induction l as [|x l IH]; simpl; [contradiction|].
  destruct (field x) as [y|] eqn:E; [|reflexivity].
  intros [H | H]; [discriminate H|]. simpl. rewrite (IH H). reflexivity.
Qed.

(** X8.  With a key set and a non-empty response, [title_by_year] sends one
    request and returns the titles of the first ten movies in the order of
    the response; it raises [KeyError] when one of those ten has no title,
    and does not look at the movies after the tenth. *)
Theorem title_by_year_outcome (W : World) (year : string)
    (movies : list movie) :
  no_key W = false ->
  discover_year W year = Json {| results_of := Some movies |} ->
  movies <> [] ->
  (forall titles,
     map movie_title (firstn 10 movies) = map Some titles ->
     title_by_year W [year]
     = ([Request (DiscoverYear year)], Ok (Some titles))) /\
  (In None (map movie_title (firstn 10 movies)) ->
   title_by_year W [year] = ([Request (DiscoverYear year)], Raise KeyError)).
Proof.
  intros Hk Hr Hne.
  assert (E : title_by_year W [year]
              = (emit (Request (DiscoverYear year)) ;;;
                 titles <- titles_of (firstn 10 movies) ;; ret (Some titles))).
  { unfold title_by_year, search_movies_by_year, try_request.
    simpl. rewrite Hk, Hr. simpl.
    destruct movies; [contradiction|]. simpl.
    destruct (titles_of _) as [t [ts|e]]; reflexivity. }
  rewrite E. unfold titles_of. split.
  - intros titles H. rewrite (mapM_item_all _ _ _ H). reflexivity.
  - intros H. rewrite (mapM_item_missing _ _ H). reflexivity.
Qed.

Lemma title_by_year_outcome_eleven :
  title_by_year (yearly (eleven ++ [{| movie_id := None; movie_title := None;
                                       movie_release_date := None;
                                       movie_job := None |}])) ["2020"]
  = ([Request (DiscoverYear "2020")],
     Ok (Some ["m1"; "m2"; "m3"; "m4"; "m5"; "m6"; "m7"; "m8"; "m9"; "m10"])).
Proof.
  apply (title_by_year_outcome (yearly _) "2020" _ eq_refl eq_refl);
    [discriminate | reflexivity].
Defined.

Lemma filterM_directors (crew : list crew_member) :
  Forall complete_entry crew ->
  filterM (fun member => job <- item (crew_job member) ;;
                         ret (String.eqb job "Director"))
          (fun member => item (crew_name member)) crew
  = ([], Ok (directors_of crew)).
Proof.
  induction 1 as [|member crew [Hj Hn] _ IH]; [reflexivity|].
  simpl. unfold directors_of in *. simpl.
  destruct (crew_job member) as [job|]; [|contradiction].
  destruct (crew_name member) as [name|]; [|contradiction].
  simpl. destruct (String.eqb job "Director"); simpl; rewrite IH; reflexivity.
Qed.

(** X9.  [director_by_title] consults the first hit of the title search
    only: with a key set, it requests the details of that movie and returns
    the names of its crew members whose job is "Director", in the order of
    the crew list, or the no-answers sentinel when there is none; the other
    hits play no part. *)
Theorem director_by_title_first_hit (W : World) (title : string)
    (first : movie) (others : list movie) (id : Z) (credits : credits) :
  no_key W = false ->
  search_movie W title = Json {| results_of := Some (first :: others) |} ->
  movie_id first = Some id ->
  movie_details W id = Json {| details_credits := Some credits |} ->
  Forall complete_entry (get (credits_crew credits) []) ->
  director_by_title W [title]
  = ([Request (SearchMovie title); Request (MovieDetails id)],
     Ok (or_no_answers (directors_of (get (credits_crew credits) [])))).
Proof.
  intros Hk Hs Hi Hd Hc.
  unfold director_by_title, search_movies_by_title, get_movie_details,
    try_request.
  simpl. rewrite Hk, Hs. simpl. rewrite Hi. simpl. rewrite Hd. simpl.
  rewrite (filterM_directors _ Hc). reflexivity.
Qed.

Lemma director_by_title_inception :
  director_by_title cinema ["inception"]
  = ([Request (SearchMovie "inception"); Request (MovieDetails 27205)],
     Ok (Some ["Christopher Nolan"])).
Proof.
  apply (director_by_title_first_hit cinema "inception" _ _ 27205%Z _
           eq_refl eq_refl eq_refl eq_refl).
  repeat constructor; discriminate.
Defined.

Lemma before_first_no_sep (sep : ascii) (s : string) :
  has_char sep (Py.before_first sep s) = false.
Proof.
  induction s as [|c s IH]; simpl; [reflexivity|].
  destruct (Ascii.eqb sep c) eqn:E; [reflexivity|].
  simpl. rewrite E, IH. reflexivity.
Qed.

(** X10.  [year_by_title] consults the first hit of the title search only:
    with a key set it sends one request and answers with the part of that
    hit's release date before its first hyphen, a text without hyphen, and
    with the no-answers sentinel when that hit has no release date or an
    empty one; the other hits play no part. *)
Theorem year_by_title_of_date (W : World) (title : string) (first : movie)
    (others : list movie) :
  no_key W = false ->
  search_movie W title = Json {| results_of := Some (first :: others) |} ->
  (forall date,
     movie_release_date first = Some date -> date <> "" ->
     year_by_title W [title]
     = ([Request (SearchMovie title)],
        Ok (Some [Py.before_first "-" date])) /\
     has_char "-" (Py.before_first "-" date) = false) /\
  (movie_release_date first = None \/ movie_release_date first = Some "" ->
   year_by_title W [title]
   = ([Request (SearchMovie title)], Ok (Some NoAnswers))).
Proof.
  intros Hk Hs.
  assert (E : year_by_title W [title]
              = ([Request (SearchMovie title)],
                 Ok (Some (if String.eqb (get (movie_release_date first) "") ""
                           then NoAnswers
                           else [Py.before_first "-"
                                   (get (movie_release_date first) "")])))).
  { unfold year_by_title, search_movies_by_title, try_request.
    simpl. rewrite Hk, Hs. simpl.
    destruct (String.eqb (get (movie_release_date first) "") ""); reflexivity. }
  rewrite E. split.
  - intros date Hd Hne. rewrite Hd. simpl get.
    destruct (String.eqb_spec date ""); [contradiction|].
    split; [reflexivity | apply before_first_no_sep].
  - intros [-> | ->]; reflexivity.
Qed.

Lemma year_by_title_inception :
  year_by_title cinema ["inception"]
  = ([Request (SearchMovie "inception")], Ok (Some ["2010"])) /\
  has_char "-" "2010" = false.
Proof.
  apply (proj1 (year_by_title_of_date cinema "inception" _ _ eq_refl eq_refl)
           "2010-07-15"); [reflexivity | discriminate].
Defined.

(** ** Letter case and question marks *)







